(** * GitHub Actions MCP server

    A shallow embedding of the server's original logic: the formatting of
    classified GitHub errors ([src/index.ts]), the construction of the
    outbound requests of the eleven operations and the extraction of
    [workflow_dispatch] inputs from a workflow document
    ([src/operations/actions.ts]), and the resolution of the credential
    at start-up ([src/index.ts]).

    The file is organised as the program is: the JavaScript values the code
    manipulates ([JS]), the error taxonomy ([Errors]) and its formatting
    ([Format]), the imported helpers ([Utils]), the operations ([Actions])
    and the entry point ([Index]); sample inputs ([Samples]) and the
    theorems follow the definitions. *)

From Stdlib Require Import ZArith String Ascii List Bool Lia DecimalString.
From stdpp Require Import base strings list gmap.

Set Warnings "-register-all".

(** ** JavaScript values *)

Module JS.

(** Characters that cannot be written inside a string literal. *)
Definition chr (n : nat) : string := String (ascii_of_nat n) EmptyString.
Definition LF : string := chr 10.
Definition DQUOTE : string := chr 34.
Definition BACKSLASH : string := chr 92.

(** The result of evaluating code that may throw. *)
Inductive outcome (E A : Type) : Type :=
| Returned (a : A)
| Raised (e : E).
Arguments Returned {E A} a.
Arguments Raised {E A} e.

Definition bind {E A B} (m : outcome E A) (k : A -> outcome E B) : outcome E B :=
  match m with
  | Returned a => k a
  | Raised e => Raised e
  end.

(** The built-in errors the modelled code can meet. *)
Inductive native_error : Type :=
| TypeError
| RangeError
| URIError.

(** Numbers.  The embedding represents the integral numbers exactly and
    keeps [NaN] and the infinities, which matter for truthiness and for
    [JSON.stringify]; other fractions are outside the model.
    [Number_toString] is the decimal rendering JavaScript uses for
    integers below 10^21 in magnitude. *)
Inductive number : Type :=
| NInt (z : Z)
| NNaN
| NInfinity (negative : bool).

Definition Number_toString (n : number) : string :=
  match n with
  | NInt z => NilZero.string_of_int (Z.to_int z)
  | NNaN => "NaN"
  | NInfinity false => "Infinity"
  | NInfinity true => "-Infinity"
  end.

(** A [Date] is its time value: milliseconds since the epoch, or [None]
    for the "Invalid Date" whose time value is [NaN]. *)
Definition Date : Type := option Z.

(** Values: what [JSON.parse] and [yaml.load] (core types and timestamps)
    produce, and what the code builds with object literals.  An object is
    the list of its own enumerable properties in the order in which
    JavaScript enumerates them. *)
Inductive value : Type :=
| VUndefined
| VNull
| VBool (b : bool)
| VNum (n : number)
| VStr (s : string)
| VDate (d : Date)
| VArr (elems : list value)
| VObj (props : list (string * value)).

(** [ToBoolean]. *)
Definition truthy (v : value) : bool :=
  match v with
  | VUndefined | VNull => false
  | VBool b => b
  | VNum (NInt z) => negb (Z.eqb z 0)
  | VNum NNaN => false
  | VNum (NInfinity _) => true
  | VStr s => negb (String.eqb s EmptyString)
  | VDate _ | VArr _ | VObj _ => true
  end.

(** [typeof v === 'object'] and [Array.isArray(v)]. *)
Definition typeof_object (v : value) : bool :=
  match v with
  | VNull | VDate _ | VArr _ | VObj _ => true
  | _ => false
  end.

Definition Array_isArray (v : value) : bool :=
  match v with
  | VArr _ => true
  | _ => false
  end.

(** *** Property keys and their order *)

Definition digit_of (c : ascii) : option Z :=
  let n := Z.of_nat (nat_of_ascii c) in
  if (48 <=? n)%Z && (n <=? 57)%Z then Some (n - 48)%Z else None.

Fixpoint parse_digits (acc : Z) (s : string) : option Z :=
  match s with
  | EmptyString => Some acc
  | String c s' =>
      match digit_of c with
      | Some d => parse_digits (10 * acc + d)%Z s'
      | None => None
      end
  end.

(** A property key is an array index when it is the canonical decimal
    rendering of an integer between 0 and 2^32 - 2. *)
Definition array_index (k : string) : option Z :=
  match k with
  | EmptyString => None
  | _ =>
      match parse_digits 0 k with
      | Some n =>
          if (n <=? 4294967294)%Z && String.eqb (Number_toString (NInt n)) k
          then Some n else None
      | None => None
      end
  end.

Fixpoint has_own (k : string) (o : list (string * value)) : bool :=
  match o with
  | [] => false
  | (k', _) :: o' => String.eqb k k' || has_own k o'
  end.

Fixpoint get_own (k : string) (o : list (string * value)) : option value :=
  match o with
  | [] => None
  | (k', v) :: o' => if String.eqb k k' then Some v else get_own k o'
  end.

Fixpoint replace_own (k : string) (v : value) (o : list (string * value))
  : list (string * value) :=
  match o with
  | [] => []
  | (k', v') :: o' =>
      if String.eqb k k' then (k', v) :: o' else (k', v') :: replace_own k v o'
  end.

(** A new array-index key goes among the array-index keys, which come
    first and ascend. *)
Fixpoint insert_index (n : Z) (k : string) (v : value) (o : list (string * value))
  : list (string * value) :=
  match o with
  | [] => [(k, v)]
  | (k', v') :: o' =>
      match array_index k' with
      | Some n' =>
          if (n' <? n)%Z then (k', v') :: insert_index n k v o'
          else (k, v) :: o
      | None => (k, v) :: o
      end
  end.

(** [o[k] = v] on an ordinary object: an existing property keeps its
    place; a new array-index key is placed by its number; any other new
    key goes last. *)
Definition define_own (k : string) (v : value) (o : list (string * value))
  : list (string * value) :=
  if has_own k o then replace_own k v o
  else match array_index k with
       | Some n => insert_index n k v o
       | None => o ++ [(k, v)]
       end.

(** The object obtained by defining the given entries one after the
    other on an object that starts as [start]: an object literal, an
    object spread, a mapping filled pair by pair. *)
Definition define_all (entries start : list (string * value)) : list (string * value) :=
  fold_left (fun o kv => define_own (fst kv) (snd kv) o) entries start.

Definition object_of_entries (entries : list (string * value)) : list (string * value) :=
  define_all entries [].

(** [v.k], for a key [k] that no built-in prototype defines (the code
    reads [on], [workflow_dispatch] and [inputs]).  Reading a property of
    [undefined] or [null] throws. *)
Definition get_member (v : value) (k : string) : outcome native_error value :=
  match v with
  | VUndefined | VNull => Raised TypeError
  | VObj o => Returned (default VUndefined (get_own k o))
  | VArr elems =>
      match array_index k with
      | Some n => Returned (nth (Z.to_nat n) elems VUndefined)
      | None =>
          if String.eqb k "length"
          then Returned (VNum (NInt (Z.of_nat (length elems))))
          else Returned VUndefined
      end
  | VStr s =>
      match array_index k with
      | Some n =>
          Returned (match String.get (Z.to_nat n) s with
                    | Some c => VStr (String c EmptyString)
                    | None => VUndefined
                    end)
      | None =>
          if String.eqb k "length"
          then Returned (VNum (NInt (Z.of_nat (String.length s))))
          else Returned VUndefined
      end
  | VBool _ | VNum _ | VDate _ => Returned VUndefined
  end.

Definition index_key (i : nat) : string := Number_toString (NInt (Z.of_nat i)).

Fixpoint string_entries (i : nat) (s : string) : list (string * value) :=
  match s with
  | EmptyString => []
  | String c s' => (index_key i, VStr (String c EmptyString)) :: string_entries (S i) s'
  end.

(** [Object.entries(v)]: the own enumerable string-keyed properties, in
    order.  It throws on [undefined] and [null]. *)
Definition Object_entries (v : value) : outcome native_error (list (string * value)) :=
  match v with
  | VUndefined | VNull => Raised TypeError
  | VObj o => Returned o
  | VArr elems => Returned (imap (fun i e => (index_key i, e)) elems)
  | VStr s => Returned (string_entries 0 s)
  | VBool _ | VNum _ | VDate _ => Returned []
  end.

(** [{ ...v }] copies the own enumerable properties of an object; in the
    code it is applied to objects that are not arrays. *)
Definition spread_entries (v : value) : list (string * value) :=
  match v with
  | VObj o => o
  | _ => []
  end.

(** *** Dates *)

Definition msPerDay : Z := 86400000.
Definition maxTimeValue : Z := 8640000000000000.

(** Year, month and day of the proleptic Gregorian calendar from the
    number of days since 1970-01-01. *)
Definition civil_from_days (days : Z) : Z * Z * Z :=
  let z := (days + 719468)%Z in
  let era := (z / 146097)%Z in
  let doe := (z - era * 146097)%Z in
  let yoe := ((doe - doe / 1460 + doe / 36524 - doe / 146096) / 365)%Z in
  let doy := (doe - (365 * yoe + yoe / 4 - yoe / 100))%Z in
  let mp := ((5 * doy + 2) / 153)%Z in
  let d := (doy - (153 * mp + 2) / 5 + 1)%Z in
  let m := if (mp <? 10)%Z then (mp + 3)%Z else (mp - 9)%Z in
  let y := (yoe + era * 400)%Z in
  (if (m <=? 2)%Z then (y + 1)%Z else y, m, d).

Fixpoint zeros (n : nat) : string :=
  match n with
  | O => EmptyString
  | S n' => "0" +:+ zeros n'
  end.

Definition pad (width : nat) (z : Z) : string :=
  let s := Number_toString (NInt z) in
  zeros (width - String.length s) +:+ s.

Definition iso_year (y : Z) : string :=
  if (0 <=? y)%Z && (y <=? 9999)%Z then pad 4 y
  else (if (y <? 0)%Z then "-" else "+") +:+ pad 6 (Z.abs y).

Definition iso_of_time (t : Z) : string :=
  let days := (t / msPerDay)%Z in
  let ms := (t mod msPerDay)%Z in
  let '(y, m, d) := civil_from_days days in
  iso_year y +:+ "-" +:+ pad 2 m +:+ "-" +:+ pad 2 d
    +:+ "T" +:+ pad 2 (ms / 3600000)%Z
    +:+ ":" +:+ pad 2 ((ms / 60000) mod 60)%Z
    +:+ ":" +:+ pad 2 ((ms / 1000) mod 60)%Z
    +:+ "." +:+ pad 3 (ms mod 1000)%Z +:+ "Z".

Definition valid_time (t : Z) : bool :=
  ((- maxTimeValue <=? t) && (t <=? maxTimeValue))%Z.

(** [d.toISOString()]: a [RangeError] on an invalid date. *)
Definition Date_toISOString (d : Date) : outcome native_error string :=
  match d with
  | Some t => if valid_time t then Returned (iso_of_time t) else Raised RangeError
  | None => Raised RangeError
  end.

(** *** JSON.stringify *)

Definition hex_digit (n : nat) : string :=
  String (ascii_of_nat (if (n <? 10)%nat then 48 + n else 87 + n)) EmptyString.

Definition quote_char (c : ascii) : string :=
  let n := nat_of_ascii c in
  if (n =? 34)%nat then BACKSLASH +:+ DQUOTE
  else if (n =? 92)%nat then BACKSLASH +:+ BACKSLASH
  else if (n =? 8)%nat then BACKSLASH +:+ "b"
  else if (n =? 12)%nat then BACKSLASH +:+ "f"
  else if (n =? 10)%nat then BACKSLASH +:+ "n"
  else if (n =? 13)%nat then BACKSLASH +:+ "r"
  else if (n =? 9)%nat then BACKSLASH +:+ "t"
  else if (n <? 32)%nat
       then BACKSLASH +:+ "u00" +:+ hex_digit (n / 16) +:+ hex_digit (n mod 16)
  else String c EmptyString.

Fixpoint quote_chars (s : string) : string :=
  match s with
  | EmptyString => EmptyString
  | String c s' => quote_char c +:+ quote_chars s'
  end.

Definition quote (s : string) : string := DQUOTE +:+ quote_chars s +:+ DQUOTE.

(** [JSON.stringify(v)] without indentation; [None] is the [undefined]
    it returns for [undefined]. *)
Fixpoint JSON_stringify (v : value) : option string :=
  match v with
  | VUndefined => None
  | VNull => Some "null"
  | VBool true => Some "true"
  | VBool false => Some "false"
  | VNum (NInt z) => Some (Number_toString (NInt z))
  | VNum _ => Some "null"
  | VStr s => Some (quote s)
  | VDate d =>
      match Date_toISOString d with
      | Returned s => Some (quote s)
      | Raised _ => Some "null"
      end
  | VArr elems =>
      let items :=
        (fix go (l : list value) : list string :=
           match l with
           | [] => []
           | e :: l' => default "null" (JSON_stringify e) :: go l'
           end) elems in
      Some ("[" +:+ String.concat "," items +:+ "]")
  | VObj o =>
      let items :=
        (fix go (l : list (string * value)) : list string :=
           match l with
           | [] => []
           | (k, x) :: l' =>
               match JSON_stringify x with
               | Some s => (quote k +:+ ":" +:+ s) :: go l'
               | None => go l'
               end
           end) o in
      Some ("{" +:+ String.concat "," items +:+ "}")
  end.

End JS.

Import JS.

#[global] Instance outcome_ret {E} : MRet (outcome E) := fun _ a => Returned a.
#[global] Instance outcome_bind {E} : MBind (outcome E) := fun _ _ k m => bind m k.

(** ** The error taxonomy *)

Module Errors.

(** The nine kinds of the taxonomy. *)
Inductive ErrorKind : Type :=
| Validation
| ResourceNotFound
| Authentication
| Permission
| RateLimit
| Conflict
| Timeout
| Network
| Generic.

#[global] Instance ErrorKind_eq_dec : EqDecision ErrorKind.
Proof. solve_decision. Defined.

(** Modelled from the spec: the reset timestamp that a [RateLimit] error
    carries is an absolute point in time, parsed from the response or
    taken as now plus a default window: a [Date] with a time value. *)
Record Instant : Type := {
  time_value : Z;
  time_valid : valid_time time_value = true;
}.

Definition Date_of (i : Instant) : Date := Some (time_value i).

(** Modelled from the spec: the classes of [common/errors.js], of which
    the source shows the names and the fields that [formatGitHubError]
    reads ([message], [response], [resetAt], [timeoutMs], [errorCode]).
    The taxonomy is a tagged variant: [GitHubError] itself is the
    [Generic] kind, carrying the status code and the raw body, and no
    subclass extends another. *)
Inductive GitHubError : Type :=
| GitHubValidationError (message : string) (response : value)
| GitHubResourceNotFoundError (message : string)
| GitHubAuthenticationError (message : string)
| GitHubPermissionError (message : string)
| GitHubRateLimitError (message : string) (resetAt : Instant)
| GitHubConflictError (message : string)
| GitHubTimeoutError (message : string) (timeoutMs : number)
| GitHubNetworkError (message : string) (errorCode : string)
| GitHubGenericError (message : string) (status : Z) (response : value).

Definition kind_of (error : GitHubError) : ErrorKind :=
  match error with
  | GitHubValidationError _ _ => Validation
  | GitHubResourceNotFoundError _ => ResourceNotFound
  | GitHubAuthenticationError _ => Authentication
  | GitHubPermissionError _ => Permission
  | GitHubRateLimitError _ _ => RateLimit
  | GitHubConflictError _ => Conflict
  | GitHubTimeoutError _ _ => Timeout
  | GitHubNetworkError _ _ => Network
  | GitHubGenericError _ _ _ => Generic
  end.

Definition message_of (error : GitHubError) : string :=
  match error with
  | GitHubValidationError m _
  | GitHubResourceNotFoundError m
  | GitHubAuthenticationError m
  | GitHubPermissionError m
  | GitHubRateLimitError m _
  | GitHubConflictError m
  | GitHubTimeoutError m _
  | GitHubNetworkError m _
  | GitHubGenericError m _ _ => m
  end.

(** The outcome of a failed outbound call, as the classifier's contract
    describes it. *)
Record CallOutcome : Type := {
  statusCode : option Z;
  headers : gmap string string;
  body : value;
  transportFailure : bool;
  elapsedExceededDeadline : bool;
}.

(** The response headers indicate a rate-limit reset time.  The name of
    the header is a parameter: the spec does not fix it. *)
Definition rate_limited (reset_header : string) (o : CallOutcome) : bool :=
  bool_decide (is_Some (headers o !! reset_header)).

(** Modelled from the spec: the classifier of [common/errors.js], which is
    not among the sources.  The decision policy in priority order, first
    match wins: transport failure, deadline, then the status code. *)
Definition classify (reset_header : string) (o : CallOutcome) : ErrorKind :=
  if transportFailure o then Network
  else if elapsedExceededDeadline o then Timeout
  else match statusCode o with
       | None => Generic
       | Some s =>
           if (s =? 401)%Z then Authentication
           else if ((s =? 403) || (s =? 429))%Z && rate_limited reset_header o
                then RateLimit
           else if (s =? 403)%Z then Permission
           else if (s =? 404)%Z then ResourceNotFound
           else if (s =? 409)%Z then Conflict
           else Generic
       end.

(** What the modelled code can throw: a classified error, the error of a
    response that does not match its schema, or a built-in error. *)
Inductive exn : Type :=
| Classified (e : GitHubError)
| ZodError (issues : value)
| Native (e : native_error).

End Errors.

Import Errors.

(** ** [src/index.ts]: formatting *)

Module Format.

(** [formatGitHubError].  The chain of [instanceof] tests is a case
    analysis on the variant; the first assignment to [message] is what
    remains for an error that is no subclass instance. *)
Definition formatGitHubError (error : GitHubError) : outcome native_error string :=
  match error with
  | GitHubValidationError m response =>
      let message := "Validation Error: " +:+ m in
      if truthy response
      then Returned (message +:+ LF +:+ "Details: "
                       +:+ default "undefined" (JSON_stringify response))
      else Returned message
  | GitHubResourceNotFoundError m => Returned ("Not Found: " +:+ m)
  | GitHubAuthenticationError m => Returned ("Authentication Failed: " +:+ m)
  | GitHubPermissionError m => Returned ("Permission Denied: " +:+ m)
  | GitHubRateLimitError m resetAt =>
      iso ← Date_toISOString (Date_of resetAt);
      Returned ("Rate Limit Exceeded: " +:+ m +:+ LF +:+ "Resets at: " +:+ iso)
  | GitHubConflictError m => Returned ("Conflict: " +:+ m)
  | GitHubTimeoutError m timeoutMs =>
      Returned ("Timeout: " +:+ m +:+ LF +:+ "Timeout setting: "
                  +:+ Number_toString timeoutMs +:+ "ms")
  | GitHubNetworkError m errorCode =>
      Returned ("Network Error: " +:+ m +:+ LF +:+ "Error code: " +:+ errorCode)
  | GitHubGenericError m _ _ => Returned ("GitHub API Error: " +:+ m)
  end.

(** The prefix that announces each kind. *)
Definition prefix_of (k : ErrorKind) : string :=
  match k with
  | Validation => "Validation Error: "
  | ResourceNotFound => "Not Found: "
  | Authentication => "Authentication Failed: "
  | Permission => "Permission Denied: "
  | RateLimit => "Rate Limit Exceeded: "
  | Conflict => "Conflict: "
  | Timeout => "Timeout: "
  | Network => "Network Error: "
  | Generic => "GitHub API Error: "
  end.

End Format.

Import Format.

(** ** The imported helpers *)

Module Utils.

(** A value of type [string | number]: a workflow identifier, a query
    parameter. *)
Inductive scalar : Type :=
| Str (s : string)
| Num (n : number).

(** [`${x}`] and [x.toString()]. *)
Definition scalar_toString (x : scalar) : string :=
  match x with
  | Str s => s
  | Num n => Number_toString n
  end.

Definition scalar_value (x : scalar) : value :=
  match x with
  | Str s => VStr s
  | Num n => VNum n
  end.

(** [common/utils.js] as the operations use it.  [githubRequest], the
    fourth import, is the effect of the [Op] monad below. *)
Class CommonUtils : Type := {
  validateOwnerName : string -> outcome GitHubError string;
  validateRepositoryName : string -> outcome GitHubError string;
  buildUrl : string -> list (string * option scalar) -> string;
}.

(** [common/types.js]: the response schemas and their [parse]. *)
Inductive Schema : Type :=
| WorkflowRunsSchema
| WorkflowRunSchema
| JobsSchema
| WorkflowsSchema
| WorkflowSchema
| WorkflowUsageSchema.

Class CommonTypes : Type := {
  parse : Schema -> value -> outcome value value;
}.

(** [js-yaml]: [yaml.load] returns the document or throws; what it
    throws is identified with its rendering by [String(e)]. *)
Class JsYaml : Type := {
  yaml_load : value -> outcome string value;
}.

(** *** The validators *)

Definition in_range (lo hi : nat) (c : ascii) : bool :=
  let n := nat_of_ascii c in ((lo <=? n) && (n <=? hi))%nat.

(** The character class [[A-Za-z0-9-_.]]. *)
Definition allowed_char (c : ascii) : bool :=
  in_range 65 90 c || in_range 97 122 c || in_range 48 57 c
  || Ascii.eqb c "-" || Ascii.eqb c "_" || Ascii.eqb c ".".

Fixpoint all_chars (p : ascii -> bool) (s : string) : bool :=
  match s with
  | EmptyString => true
  | String c s' => p c && all_chars p s'
  end.

Definition is_empty (s : string) : bool := String.eqb s EmptyString.

Definition too_long (max_len : nat) (s : string) : bool :=
  (max_len <? String.length s)%nat.

(** The test of the validator. *)
Definition rejects (max_len : nat) (name : string) : bool :=
  is_empty name || too_long max_len name || negb (all_chars allowed_char name).

(** Modelled from the spec: the validator of an owner or repository name,
    from [common/utils.js], which is not among the sources.  It fails
    with a [Validation] error when the name is empty, longer than the
    maximum identifier length or has a character outside the class, and
    returns the name otherwise.  The maximum length is a parameter; the
    error names the field and carries the rejected value. *)
Definition validate_name (field : string) (max_len : nat) (name : string)
  : outcome GitHubError string :=
  if rejects max_len name
  then Raised (GitHubValidationError ("Invalid " +:+ field +:+ " name") (VStr name))
  else Returned name.

(** The three grounds on which a name is rejected. *)
Definition rejected (max_len : nat) (name : string) : Prop :=
  name = EmptyString
  \/ (max_len < String.length name)%nat
  \/ exists c, In c (list_ascii_of_string name) /\ allowed_char c = false.

(** *** The query string *)

Definition query_of (params : list (string * option scalar)) : list (string * string) :=
  omap (fun p => x ← snd p; Some (fst p, scalar_toString x)) params.

Definition render_query (q : list (string * string)) : string :=
  match q with
  | [] => EmptyString
  | _ => "?" +:+ String.concat "&" (map (fun p => fst p +:+ "=" +:+ snd p) q)
  end.

(** Modelled from the spec: [buildUrl] of [common/utils.js], which is not
    among the sources.  Each parameter that is not [undefined] becomes a
    query parameter of the URL, in order. *)
Definition spec_buildUrl (base : string) (params : list (string * option scalar)) : string :=
  base +:+ render_query (query_of params).

(** The helpers as the spec describes them, for given maximum lengths. *)
Definition SpecUtils (owner_max repo_max : nat) : CommonUtils := {|
  validateOwnerName := validate_name "owner" owner_max;
  validateRepositoryName := validate_name "repository" repo_max;
  buildUrl := spec_buildUrl;
|}.

End Utils.

Import Utils.

(** ** [src/operations/actions.ts] *)

Module Actions.

(** An operation is a computation that returns, throws, or awaits
    [githubRequest(url, options)] and goes on with the response. *)
Inductive Op (A : Type) : Type :=
| Done (a : A)
| Fail (e : exn)
| Await (url : string) (options : value) (k : value -> Op A).
Arguments Done {A} a.
Arguments Fail {A} e.
Arguments Await {A} url options k.

Fixpoint Op_bind {A B} (m : Op A) (k : A -> Op B) : Op B :=
  match m with
  | Done a => k a
  | Fail e => Fail e
  | Await url options k' => Await url options (fun r => Op_bind (k' r) k)
  end.

#[global] Instance Op_ret : MRet Op := fun _ a => Done a.
#[global] Instance Op_mbind : MBind Op := fun _ _ k m => Op_bind m k.

Definition githubRequest (url : string) (options : value) : Op value :=
  Await url options Done.

(** A helper that throws a classified error, a [parse] that throws a
    [ZodError], a built-in that throws. *)
Definition classified {A} (r : outcome GitHubError A) : Op A :=
  match r with
  | Returned a => Done a
  | Raised e => Fail (Classified e)
  end.

Definition parsed {A} (r : outcome value A) : Op A :=
  match r with
  | Returned a => Done a
  | Raised issues => Fail (ZodError issues)
  end.

Definition native {A} (r : outcome native_error A) : Op A :=
  match r with
  | Returned a => Done a
  | Raised e => Fail (Native e)
  end.

(** Running an operation against GitHub: the requests issued, in order,
    and how the operation completes.  [githubRequest] throws classified
    errors. *)
Fixpoint run {A} (github : string -> value -> outcome GitHubError value) (op : Op A)
  : list (string * value) * outcome exn A :=
  match op with
  | Done a => ([], Returned a)
  | Fail e => ([], Raised e)
  | Await url options k =>
      match github url options with
      | Returned response =>
          let r := run github (k response) in
          ((url, options) :: fst r, snd r)
      | Raised e => ([(url, options)], Raised (Classified e))
      end
  end.

(** An operation that has no request left to issue. *)
Definition final {A} (op : Op A) : Prop :=
  match op with
  | Await _ _ _ => False
  | _ => True
  end.

Definition repos : string := "https://api.github.com/repos/".

Definition POST : value := VObj [("method", VStr "POST")].

(** The options of [listWorkflowRuns]. *)
Record RunsOptions : Type := {
  workflowId : option scalar;
  actor : option string;
  branch : option string;
  event : option string;
  status : option string;
  created : option string;
  excludePullRequests : option bool;
  checkSuiteId : option number;
  page : option number;
  perPage : option number;
}.

(** [Record<string, string>] as a value. *)
Definition record_value (m : list (string * string)) : value :=
  VObj (map (fun p => (fst p, VStr (snd p))) m).

(** [x ? ... : ...] on an optional [string | number]. *)
Definition scalar_truthy (x : option scalar) : bool :=
  match x with
  | Some y => truthy (scalar_value y)
  | None => false
  end.

(** The object literal that [listWorkflowRuns] hands to [buildUrl]. *)
Definition runs_params (options : RunsOptions) : list (string * option scalar) :=
  [ ("actor", Str <$> actor options);
    ("branch", Str <$> branch options);
    ("event", Str <$> event options);
    ("status", Str <$> status options);
    ("created", Str <$> created options);
    ("exclude_pull_requests",
      match excludePullRequests options with
      | Some true => Some (Str "true")
      | _ => None
      end);
    ("check_suite_id", Num <$> checkSuiteId options);
    ("page", Num <$> page options);
    ("per_page", Num <$> perPage options) ].

(** The record that [triggerWorkflow], [cancelWorkflowRun] and
    [rerunWorkflowRun] return. *)
Definition success_record (message : string) : value :=
  VObj [("success", VBool true); ("message", VStr message)].

(** An operation completed by returning the success record with the
    given message, or by throwing a classified error. *)
Definition completes_with (message : string) (r : outcome exn value) : Prop :=
  match r with
  | Returned result => result = success_record message
  | Raised x => exists e, x = Classified e
  end.

(** The request body of [triggerWorkflow]: [{ ref }], to which [inputs]
    is added when it is given and has a key. *)
Definition trigger_body (ref : string) (inputs : option (list (string * string))) : value :=
  let body := [("ref", VStr ref)] in
  match inputs with
  | Some m =>
      if (0 <? length m)%nat
      then VObj (define_own "inputs" (record_value m) body)
      else VObj body
  | None => VObj body
  end.

(** [encodeURIComponent] escapes the bytes of the UTF-8 form of a
    string, and that form is how a string with characters beyond ASCII is
    held here.  A surrogate code unit that has no partner, which UTF-8
    proper does not encode, is held as the three bytes of its code point:
    ED, then a byte from A0 to BF, then a continuation byte.  In the
    UTF-8 form of a well-formed string ED is followed by a byte from 80
    to 9F, so the two bytes ED, A0..BF are there exactly when the string
    has a lone surrogate, and that is when [encodeURIComponent] throws a
    [URIError].  Otherwise every byte but the unreserved characters
    becomes a percent escape. *)
Definition unreserved (c : ascii) : bool :=
  in_range 65 90 c || in_range 97 122 c || in_range 48 57 c
  || existsb (Ascii.eqb c) (list_ascii_of_string "-_.!~*'()").

Definition HEX (n : nat) : string :=
  String (ascii_of_nat (if (n <? 10)%nat then 48 + n else 55 + n)) EmptyString.

Fixpoint percent_encode (s : string) : string :=
  match s with
  | EmptyString => EmptyString
  | String c s' =>
      (if unreserved c then String c EmptyString
       else "%" +:+ HEX (nat_of_ascii c / 16) +:+ HEX (nat_of_ascii c mod 16))
      +:+ percent_encode s'
  end.

Definition surrogate_bytes (a b : ascii) : bool :=
  (nat_of_ascii a =? 237)%nat && in_range 160 191 b.

Fixpoint has_lone_surrogate (s : string) : bool :=
  match s with
  | EmptyString => false
  | String a s' =>
      match s' with
      | String b _ => surrogate_bytes a b
      | EmptyString => false
      end
      || has_lone_surrogate s'
  end.

Definition encodeURIComponent (s : string) : outcome native_error string :=
  if has_lone_surrogate s then Raised URIError else Returned (percent_encode s).

(** *** Reading the dispatch inputs of a parsed document *)

(** [v.k1.k2...]. *)
Definition member_path (v : value) (path : list string) : outcome native_error value :=
  fold_left (fun acc k => x ← acc; get_member x k) path (Returned v).

(** [doc && doc.on && doc.on.w && doc.on.w.inputs], as the condition of
    an [if]: each operand is evaluated only when those before it are
    truthy. *)
Definition has_inputs (doc : value) (w : string) : outcome native_error bool :=
  if truthy doc then
    on ← member_path doc ["on"];
    if truthy on then
      dispatch ← member_path doc ["on"; w];
      if truthy dispatch then
        inputs ← member_path doc ["on"; w; "inputs"];
        Returned (truthy inputs)
      else Returned false
    else Returned false
  else Returned false.

(** The two branches that look for the inputs; [doc.on.workflow_dispatch]
    and [doc.on['workflow_dispatch']] read the same property. *)
Definition find_inputs (doc : value) : outcome native_error value :=
  dotted ← has_inputs doc "workflow_dispatch";
  if (dotted : bool) then member_path doc ["on"; "workflow_dispatch"; "inputs"]
  else
    bracketed ← has_inputs doc "workflow_dispatch";
    if (bracketed : bool) then member_path doc ["on"; "workflow_dispatch"; "inputs"]
    else Returned VUndefined.

(** The callback of [map]: [{ name, ...meta }] for a metadata object,
    [{ name }] otherwise. *)
Definition input_record (entry : string * value) : value :=
  let name := fst entry in
  let meta := snd entry in
  if truthy meta && typeof_object meta && negb (Array_isArray meta)
  then VObj (define_all (spread_entries meta) (define_own "name" (VStr name) []))
  else VObj (define_own "name" (VStr name) []).

Definition no_inputs_found : value :=
  VObj [("error", VStr "No workflow_dispatch inputs found in workflow YAML.")].

Definition parse_failure (details : string) : value :=
  VObj [("error", VStr "Failed to parse workflow YAML"); ("details", VStr details)].

(** What [getWorkflowDispatchInputs] does with the document once
    [yaml.load] has returned it. *)
Definition extract_dispatch_inputs (doc : value) : outcome native_error value :=
  inputs ← find_inputs doc;
  if negb (truthy inputs) then Returned no_inputs_found
  else
    entries ← Object_entries inputs;
    Returned (VObj [("inputs", VArr (map input_record entries))]).

(** The value under the key [k] of a mapping. *)
Definition own_member (v : value) (k : string) : option value :=
  match v with
  | VObj o => get_own k o
  | _ => None
  end.

(** What the document has under [on.workflow_dispatch.inputs], each step
    of the path being a key of a mapping; [None] when a step is missing. *)
Definition declared_inputs (doc : value) : option value :=
  on ← own_member doc "on";
  dispatch ← own_member on "workflow_dispatch";
  own_member dispatch "inputs".

(** [v.k] where it cannot throw. *)
Definition read (v : value) (k : string) : value :=
  match get_member v k with
  | Returned x => x
  | Raised _ => VUndefined
  end.

(** The value of [inputs] after the two branches, which leave it
    [undefined] unless every step of the path is truthy. *)
Definition guarded_inputs (doc : value) : value :=
  let on := read doc "on" in
  let dispatch := read on "workflow_dispatch" in
  let inputs := read dispatch "inputs" in
  if truthy doc && truthy on && truthy dispatch && truthy inputs
  then inputs else VUndefined.

(** The URL that [getWorkflowYaml] requests when [encodeURIComponent]
    returns, the options of the request, and the text that is made of the
    response. *)
Definition yaml_url (owner repo workflowId : string) : string :=
  let path := ".github/workflows/" +:+ workflowId in
  repos +:+ owner +:+ "/" +:+ repo +:+ "/contents/" +:+ percent_encode path.

Definition raw_accept : value :=
  VObj [("headers", VObj [("Accept", VStr "application/vnd.github.v3.raw")])].

Definition yaml_content (response : value) : value :=
  match response with
  | VStr s => VStr s
  | _ => from_option VStr VUndefined (JSON_stringify response)
  end.

(** *** The operations *)

Section Operations.
Context `{U : CommonUtils} `{T : CommonTypes} `{Y : JsYaml}.

Definition listWorkflows (owner repo : string) (page perPage : option number)
  : Op value :=
  owner ← classified (validateOwnerName owner);
  repo ← classified (validateRepositoryName repo);
  let url := buildUrl (repos +:+ owner +:+ "/" +:+ repo +:+ "/actions/workflows")
               [("page", Num <$> page); ("per_page", Num <$> perPage)] in
  response ← githubRequest url VUndefined;
  parsed (parse WorkflowsSchema response).

Definition getWorkflow (owner repo : string) (workflowId : scalar) : Op value :=
  owner ← classified (validateOwnerName owner);
  repo ← classified (validateRepositoryName repo);
  let url := repos +:+ owner +:+ "/" +:+ repo +:+ "/actions/workflows/"
               +:+ scalar_toString workflowId in
  response ← githubRequest url VUndefined;
  parsed (parse WorkflowSchema response).

Definition getWorkflowUsage (owner repo : string) (workflowId : scalar) : Op value :=
  owner ← classified (validateOwnerName owner);
  repo ← classified (validateRepositoryName repo);
  let url := repos +:+ owner +:+ "/" +:+ repo +:+ "/actions/workflows/"
               +:+ scalar_toString workflowId +:+ "/timing" in
  response ← githubRequest url VUndefined;
  parsed (parse WorkflowUsageSchema response).

(** The URL of [listWorkflowRuns] before the query is added. *)
Definition runs_base (owner repo : string) (options : RunsOptions) : string :=
  if scalar_truthy (workflowId options)
  then repos +:+ owner +:+ "/" +:+ repo +:+ "/actions/workflows/"
         +:+ from_option scalar_toString "undefined" (workflowId options) +:+ "/runs"
  else repos +:+ owner +:+ "/" +:+ repo +:+ "/actions/runs".

Definition listWorkflowRuns (owner repo : string) (options : RunsOptions) : Op value :=
  owner ← classified (validateOwnerName owner);
  repo ← classified (validateRepositoryName repo);
  let url := buildUrl (runs_base owner repo options) (runs_params options) in
  response ← githubRequest url VUndefined;
  parsed (parse WorkflowRunsSchema response).

Definition getWorkflowRun (owner repo : string) (runId : number) : Op value :=
  owner ← classified (validateOwnerName owner);
  repo ← classified (validateRepositoryName repo);
  let url := repos +:+ owner +:+ "/" +:+ repo +:+ "/actions/runs/"
               +:+ Number_toString runId in
  response ← githubRequest url VUndefined;
  parsed (parse WorkflowRunSchema response).

Definition getWorkflowRunJobs (owner repo : string) (runId : number)
    (filter : option string) (page perPage : option number) : Op value :=
  owner ← classified (validateOwnerName owner);
  repo ← classified (validateRepositoryName repo);
  let url := buildUrl (repos +:+ owner +:+ "/" +:+ repo +:+ "/actions/runs/"
                         +:+ Number_toString runId +:+ "/jobs")
               [("filter", Str <$> filter); ("page", Num <$> page);
                ("per_page", Num <$> perPage)] in
  response ← githubRequest url VUndefined;
  parsed (parse JobsSchema response).

Definition triggerWorkflow (owner repo : string) (workflowId : scalar) (ref : string)
    (inputs : option (list (string * string))) : Op value :=
  owner ← classified (validateOwnerName owner);
  repo ← classified (validateRepositoryName repo);
  let url := repos +:+ owner +:+ "/" +:+ repo +:+ "/actions/workflows/"
               +:+ scalar_toString workflowId +:+ "/dispatches" in
  let body := trigger_body ref inputs in
  _ ← githubRequest url (VObj [("method", VStr "POST"); ("body", body)]);
  mret (success_record ("Workflow " +:+ scalar_toString workflowId
                          +:+ " triggered on " +:+ ref)).

Definition cancelWorkflowRun (owner repo : string) (runId : number) : Op value :=
  owner ← classified (validateOwnerName owner);
  repo ← classified (validateRepositoryName repo);
  let url := repos +:+ owner +:+ "/" +:+ repo +:+ "/actions/runs/"
               +:+ Number_toString runId +:+ "/cancel" in
  _ ← githubRequest url POST;
  mret (success_record ("Workflow run " +:+ Number_toString runId +:+ " cancelled")).

Definition rerunWorkflowRun (owner repo : string) (runId : number) : Op value :=
  owner ← classified (validateOwnerName owner);
  repo ← classified (validateRepositoryName repo);
  let url := repos +:+ owner +:+ "/" +:+ repo +:+ "/actions/runs/"
               +:+ Number_toString runId +:+ "/rerun" in
  _ ← githubRequest url POST;
  mret (success_record ("Workflow run " +:+ Number_toString runId +:+ " restarted")).

Definition getWorkflowYaml (owner repo workflowId : string) : Op value :=
  owner ← classified (validateOwnerName owner);
  repo ← classified (validateRepositoryName repo);
  let path := ".github/workflows/" +:+ workflowId in
  escaped ← native (encodeURIComponent path);
  let url := repos +:+ owner +:+ "/" +:+ repo +:+ "/contents/" +:+ escaped in
  response ← githubRequest url raw_accept;
  mret (VObj [("yaml", yaml_content response)]).

Definition getWorkflowDispatchInputs (owner repo workflowId : string) : Op value :=
  file ← getWorkflowYaml owner repo workflowId;
  yamlContent ← native (get_member file "yaml");
  match yaml_load yamlContent with
  | Raised e => mret (parse_failure e)
  | Returned doc => native (extract_dispatch_inputs doc)
  end.

(** How an operation that validates, issues one request and returns a
    fixed record runs against [github]: the requests and the
    completion. *)
Definition run_mutation (github : string -> value -> outcome GitHubError value)
    (owner repo : string) (url : string -> string -> string)
    (options result : value) : list (string * value) * outcome exn value :=
  match validateOwnerName owner with
  | Raised e => ([], Raised (Classified e))
  | Returned owner' =>
      match validateRepositoryName repo with
      | Raised e => ([], Raised (Classified e))
      | Returned repo' =>
          ([(url owner' repo', options)],
           match github (url owner' repo') options with
           | Returned _ => Returned result
           | Raised e => Raised (Classified e)
           end)
      end
  end.

End Operations.

End Actions.

Import Actions.

(** ** [src/index.ts]: the credential *)

Module Index.

Definition flag : string := "--token=".

(** The loop over [process.argv]: the first argument that starts with
    [--token=] gives [cliToken] and ends the loop. *)
Fixpoint cliToken (argv : list string) : option string :=
  match argv with
  | [] => None
  | arg :: rest =>
      if String.prefix flag arg
      then Some (String.substring (String.length flag)
                   (String.length arg - String.length flag) arg)
      else cliToken rest
  end.

(** An argument that the loop passes over. *)
Definition no_flag (arg : string) : Prop := String.prefix flag arg = false.

(** [a || b] on values of type [string | undefined]. *)
Definition or_else (a b : option string) : option string :=
  match a with
  | Some s => if truthy (VStr s) then a else b
  | None => b
  end.

Definition GITHUB_TOKEN (argv : list string) (env : option string) : option string :=
  or_else (cliToken argv) env.

(** How start-up goes on after the credential is looked for: the process
    exits, or the client is created with the token and the server is set
    up to accept calls. *)
Inductive Startup : Type :=
| Exit (code : Z)
| Serve (token : string).

(** The start-up sequence from the resolution of the token on; [env] is
    [process.env.GITHUB_PERSONAL_ACCESS_TOKEN]. *)
Definition startup (argv : list string) (env : option string) : Startup :=
  match GITHUB_TOKEN argv env with
  | Some token => if negb (truthy (VStr token)) then Exit 1 else Serve token
  | None => Exit 1
  end.

(** The tools that the server registers, with the parameters each
    handler passes on besides [owner] and [repo]. *)
Inductive ToolCall : Type :=
| list_workflows (page perPage : option number)
| get_workflow (workflowId : scalar)
| get_workflow_usage (workflowId : scalar)
| list_workflow_runs (options : RunsOptions)
| get_workflow_run (runId : number)
| get_workflow_run_jobs (runId : number) (filter : option string)
    (page perPage : option number)
| trigger_workflow (workflowId : scalar) (ref : string)
    (inputs : option (list (string * string)))
| cancel_workflow_run (runId : number)
| rerun_workflow (runId : number)
| get_workflow_yaml (workflowId : string)
| get_workflow_dispatch_inputs (workflowId : string).

(** The operation that the handler of a tool calls. *)
Definition operation `{U : CommonUtils} `{T : CommonTypes} `{Y : JsYaml}
    (owner repo : string) (call : ToolCall) : Op value :=
  match call with
  | list_workflows page perPage => listWorkflows owner repo page perPage
  | get_workflow workflowId => getWorkflow owner repo workflowId
  | get_workflow_usage workflowId => getWorkflowUsage owner repo workflowId
  | list_workflow_runs options => listWorkflowRuns owner repo options
  | get_workflow_run runId => getWorkflowRun owner repo runId
  | get_workflow_run_jobs runId filter page perPage =>
      getWorkflowRunJobs owner repo runId filter page perPage
  | trigger_workflow workflowId ref inputs =>
      triggerWorkflow owner repo workflowId ref inputs
  | cancel_workflow_run runId => cancelWorkflowRun owner repo runId
  | rerun_workflow runId => rerunWorkflowRun owner repo runId
  | get_workflow_yaml workflowId => getWorkflowYaml owner repo workflowId
  | get_workflow_dispatch_inputs workflowId =>
      getWorkflowDispatchInputs owner repo workflowId
  end.

(** Whether [encodeURIComponent] returns on the file name that the call
    gives; only the two tools that read a workflow file escape one. *)
Definition escapes (call : ToolCall) : bool :=
  match call with
  | get_workflow_yaml workflowId | get_workflow_dispatch_inputs workflowId =>
      negb (has_lone_surrogate workflowId)
  | _ => true
  end.

End Index.

Import Index.

(** ** Sample inputs *)

Module Samples.

(** A response with status 429 and a reset header. *)
Definition rate_limited_response : CallOutcome := {|
  statusCode := Some 429%Z;
  headers := {["x-ratelimit-reset" := "1700000000"]};
  body := VNull;
  transportFailure := false;
  elapsedExceededDeadline := false;
|}.

(** A rate-limit error that resets on 2023-11-14 at 22:13:20 UTC. *)
Definition rate_limit_error : GitHubError :=
  GitHubRateLimitError "API rate limit exceeded"
    {| time_value := 1700000000000; time_valid := eq_refl |}.

(** GitHub's limits on the length of a user name and of a repository
    name. *)
Definition GitHubUtils : CommonUtils := SpecUtils 39 100.

(** Schemas that accept every response. *)
Definition AnyTypes : CommonTypes := {| parse := fun _ response => Returned response |}.

(** A GitHub that answers every request with no content. *)
Definition no_content (url : string) (options : value) : outcome GitHubError value :=
  Returned VUndefined.

(** A GitHub that serves the same file content for every request. *)
Definition serves (content : string) (url : string) (options : value)
  : outcome GitHubError value :=
  Returned (VStr content).

Definition all_runs : RunsOptions := {|
  workflowId := None;
  actor := None;
  branch := None;
  event := None;
  status := None;
  created := None;
  excludePullRequests := Some true;
  checkSuiteId := None;
  page := Some (NInt 2);
  perPage := Some (NInt 50);
|}.

(** A [yaml.load] that returns the given document, and one that throws. *)
Definition Loads (doc : value) : JsYaml := {| yaml_load := fun _ => Returned doc |}.

Definition FailsToLoad (e : string) : JsYaml := {| yaml_load := fun _ => Raised e |}.

(** The document
    [on: {workflow_dispatch: {inputs: {environment: {description: env,
    required: true, default: prod}}}}]. *)
Definition environment_workflow : value :=
  VObj [("on", VObj [("workflow_dispatch", VObj [("inputs", VObj
    [("environment",
      VObj [("description", VStr "env"); ("required", VBool true);
            ("default", VStr "prod")])])])])].

(** A workflow that runs on pushes only. *)
Definition push_workflow : value :=
  VObj [("name", VStr "CI"); ("on", VObj [("push", VNull)])].

(** The file name that JavaScript writes ["\ud800.yml"]: a high surrogate
    without its partner, then [.yml]. *)
Definition lone_surrogate_name : string :=
  chr 237 +:+ chr 160 +:+ chr 128 +:+ ".yml".

(** A workflow that can be dispatched by hand and declares no input:
    [on: {workflow_dispatch: {inputs: {}}}]. *)
Definition empty_inputs_workflow : value :=
  VObj [("on", VObj [("workflow_dispatch", VObj [("inputs", VObj [])])])].

(** A workflow whose input [environment] has a metadata field [name]. *)
Definition named_metadata_workflow : value :=
  VObj [("on", VObj [("workflow_dispatch", VObj [("inputs", VObj
    [("environment",
      VObj [("name", VStr "target"); ("description", VStr "env")])])])])].

End Samples.

Import Samples.

(** ** The tools and their handlers *)

Module Tools.

(** The schema through which a read operation returns the response; the
    other operations use none. *)
Definition schema_of (call : ToolCall) : option Schema :=
  match call with
  | list_workflows _ _ => Some WorkflowsSchema
  | get_workflow _ => Some WorkflowSchema
  | get_workflow_usage _ => Some WorkflowUsageSchema
  | list_workflow_runs _ => Some WorkflowRunsSchema
  | get_workflow_run _ => Some WorkflowRunSchema
  | get_workflow_run_jobs _ _ _ _ => Some JobsSchema
  | _ => None
  end.

(** The tools whose operation changes something on GitHub. *)
Definition is_mutation (call : ToolCall) : bool :=
  match call with
  | trigger_workflow _ _ _ | cancel_workflow_run _ | rerun_workflow _ => true
  | _ => false
  end.

(** The characters that [encodeURIComponent] leaves in its result. *)
Definition url_safe (c : ascii) : bool := unreserved c || Ascii.eqb c "%".

(** [{ content: [{ type: "text", text }] }]. *)
Definition text_content (text : value) : value :=
  VObj [("content", VArr [VObj [("type", VStr "text"); ("text", text)]])].

(** What a handler of [src/index.ts] returns for the result of its
    operation: the result as JSON text, and for [get_workflow_yaml] the
    [yaml] of the result as it is. *)
Definition respond (call : ToolCall) (result : value) : outcome native_error value :=
  match call with
  | get_workflow_yaml _ =>
      text ← get_member result "yaml";
      Returned (text_content text)
  | _ => Returned (text_content (from_option VStr VUndefined (JSON_stringify result)))
  end.

(** The line that a handler logs when it is called: only that of
    [list_workflows] logs one. *)
Definition received (call : ToolCall) : option string :=
  match call with
  | list_workflows _ _ =>
      Some "[MCP Server Log] Received list_workflows request (via server.tool)"
  | _ => None
  end.

(** The handler of a tool, the line of [received] apart: it awaits the
    operation and responds; what the operation throws goes through. *)
Definition tool `{U : CommonUtils} `{T : CommonTypes} `{Y : JsYaml}
    (owner repo : string) (call : ToolCall) : Op value :=
  result ← operation owner repo call;
  native (respond call result).

End Tools.

Import Tools.

(** ** [src/index.ts]: the log file and the process *)

Module Logging.

(** What a [catch] clause or a process handler reads of the value it is
    given: [err.message] and [err.stack] when they are strings, whether
    [err instanceof Error], and [String(err)]. *)
Record Thrown : Type := {
  thrown_message : option string;
  thrown_stack : option string;
  thrown_is_Error : bool;
  thrown_text : string;
}.

(** A string that is there and truthy. *)
Definition truthy_string (s : option string) : option string :=
  match s with
  | Some x => if truthy (VStr x) then Some x else None
  | None => None
  end.

(** [err?.message || String(err)]. *)
Definition describe (err : Thrown) : string :=
  from_option id (thrown_text err) (truthy_string (thrown_message err)).

(** The stack that is logged under the condition
    [err instanceof Error && err.stack]. *)
Definition stack_of (err : Thrown) : option string :=
  if thrown_is_Error err then truthy_string (thrown_stack err) else None.

(** The functions of [fs] that the logger calls, on a file system of type
    [F].  A call that throws leaves the file system in a state of its own. *)
Class FileSystem (F : Type) : Type := {
  existsSync : string -> F -> bool;
  mkdirSync : string -> F -> outcome (Thrown * F) F;
  writeFileSync : string -> string -> F -> outcome (Thrown * F) F;
  appendFileSync : string -> string -> F -> outcome (Thrown * F) F;
}.

(** The path of the log file, its directory, and the time that the
    [n]-th reading of the clock gives. *)
Record Config : Type := {
  logFilePath : string;
  logDir : string;
  clock : nat -> Instant;
}.

(** The files, what was written to the standard error, and the number of
    readings of the clock so far. *)
Record World (F : Type) : Type := {
  files : F;
  stderr : list string;
  ticks : nat;
}.
Arguments files {F} w.
Arguments stderr {F} w.
Arguments ticks {F} w.

Definition with_files {F} (f : F) (w : World F) : World F :=
  {| files := f; stderr := stderr w; ticks := ticks w |}.

(** [console.error(line)]. *)
Definition console_error {F} (line : string) (w : World F) : World F :=
  {| files := files w; stderr := stderr w ++ [line]; ticks := ticks w |}.

Definition console_error_opt {F} (line : option string) (w : World F) : World F :=
  match line with
  | Some l => console_error l w
  | None => w
  end.

Section Logger.
Context {F : Type} `{FS : FileSystem F}.
Variable cfg : Config.

(** The directory is made when it is not there. *)
Definition ensure_directory (f : F) : outcome (Thrown * F) F :=
  if negb (existsSync (logDir cfg) f) then mkdirSync (logDir cfg) f else Returned f.

(** The line that [logToFile] appends. *)
Definition log_line (timestamp message : string) : string :=
  "[" +:+ timestamp +:+ "] " +:+ message +:+ LF.

(** [logToFile].  The timestamp is that of [new Date()], a valid date, on
    which [toISOString] returns. *)
Definition logToFile (message : string) (w : World F) : World F :=
  let timestamp := iso_of_time (time_value (clock cfg (ticks w))) in
  let w := {| files := files w; stderr := stderr w; ticks := S (ticks w) |} in
  match f ← ensure_directory (files w);
        appendFileSync (logFilePath cfg) (log_line timestamp message) f with
  | Returned f' => with_files f' w
  | Raised (err, f') =>
      let errorMsg := "[File Log Error] Failed to write to " +:+ logFilePath cfg
                        +:+ ": " +:+ describe err in
      console_error ("[Original Message] " +:+ message)
        (console_error_opt (stack_of err)
           (console_error errorMsg (with_files f' w)))
  end.

Definition logToFile_opt (message : option string) (w : World F) : World F :=
  match message with
  | Some m => logToFile m w
  | None => w
  end.

(** The log file is emptied at start-up; [false] when that fails, in which
    case the process exits with code 1. *)
Definition initialize_log (w : World F) : World F * bool :=
  match f ← ensure_directory (files w);
        writeFileSync (logFilePath cfg) EmptyString f with
  | Returned f' =>
      (logToFile "[MCP Server Log] Log file cleared/initialized." (with_files f' w), true)
  | Raised (err, f') =>
      let errorMsg := "[MCP Startup Error] Failed to initialize log file at "
                        +:+ logFilePath cfg +:+ ": " +:+ describe err in
      (console_error_opt (stack_of err) (console_error errorMsg (with_files f' w)), false)
  end.

(** The token that start-up goes on with, when there is one. *)
Definition token_found (argv : list string) (env : option string) : option string :=
  truthy_string (GITHUB_TOKEN argv env).

(** Start-up, from the emptying of the log file to the connection of the
    transport.  The constructors of [Octokit] and [McpServer] and the
    registrations of the tools, which lie in between, log nothing and are
    taken to return; [connect] is how the making of the transport and
    [server.connect], in their [try] block, complete. *)
Definition main (argv : list string) (env : option string)
    (connect : outcome Thrown unit) (w : World F) : World F * Startup :=
  let (w, initialized) := initialize_log w in
  if negb initialized then (w, Exit 1)
  else
    let w := logToFile "[MCP Server Log] Initializing GitHub Actions MCP Server..." w in
    match token_found argv env with
    | None =>
        (logToFile "FATAL: GITHUB_PERSONAL_ACCESS_TOKEN environment variable is not set." w,
         Exit 1)
    | Some token =>
        let w := logToFile "[MCP Server Log] GitHub token found." w in
        let w := logToFile "[MCP Server Log] Octokit initialized." w in
        let w := logToFile
                   "[MCP Server Log] Server initialization complete. Ready for connection."
                   w in
        match connect with
        | Returned _ =>
            (logToFile "[MCP Server Log] Connected via stdio transport." w, Serve token)
        | Raised error =>
            let w := logToFile ("[MCP Server Log] FATAL Error during server setup: "
                                  +:+ describe error) w in
            (logToFile_opt (stack_of error) w, Exit 1)
        end
    end.




End Logger.

End Logging.

Import Logging.

(** ** The handlers that format errors *)

Module ErrorHandler.

(** [JSON.stringify(v, null, 2)]: members and elements on lines of their
    own, indented by two spaces a level; an object or array without member
    is written without line break. *)
Definition bracketed (open close indent : string) (items : list string) : string :=
  match items with
  | [] => open +:+ close
  | _ =>
      let inner := indent +:+ "  " in
      open +:+ LF +:+ inner
        +:+ String.concat ("," +:+ LF +:+ inner) items
        +:+ LF +:+ indent +:+ close
  end.

Fixpoint JSON_stringify_indented (indent : string) (v : value) : option string :=
  match v with
  | VArr elems =>
      let items :=
        (fix go (l : list value) : list string :=
           match l with
           | [] => []
           | e :: l' =>
               default "null" (JSON_stringify_indented (indent +:+ "  ") e) :: go l'
           end) elems in
      Some (bracketed "[" "]" indent items)
  | VObj o =>
      let items :=
        (fix go (l : list (string * value)) : list string :=
           match l with
           | [] => []
           | (k, x) :: l' =>
               match JSON_stringify_indented (indent +:+ "  ") x with
               | Some s => (quote k +:+ ": " +:+ s) :: go l'
               | None => go l'
               end
           end) o in
      Some (bracketed "{" "}" indent items)
  | _ => JSON_stringify v
  end.

(** What a handler ends up throwing: an [Error] made with a message, or
    an error as it is, which is the one it caught unless the formatting
    itself threw. *)
Inductive Failure : Type :=
| NewError (message : string)
| Same (error : exn).

(** [errorHandler], of the entry point that registers its tools with a
    description.  It returns nothing: every path throws.  [isGitHubError],
    from [common/errors.js], is the type guard of [GitHubError]: it holds
    of the classified errors. *)
Definition errorHandler (error : exn) : outcome Failure unit :=
  match error with
  | ZodError issues =>
      Raised (NewError ("Invalid input: "
                          +:+ default "undefined" (JSON_stringify issues)))
  | Classified e =>
      match formatGitHubError e with
      | Returned message => Raised (NewError message)
      | Raised native => Raised (Same (Native native))
      end
  | Native _ => Raised (Same error)
  end.

(** A handler of that entry point, from the completion of the operation it
    awaits: the result as indented JSON text, or, in the [catch] clause,
    [errorHandler] and then the content "Error". *)
Definition handle (completion : outcome exn value) : outcome Failure value :=
  match completion with
  | Returned result =>
      Returned (text_content
                  (from_option VStr VUndefined (JSON_stringify_indented EmptyString result)))
  | Raised error =>
      _ ← errorHandler error;
      Returned (text_content (VStr "Error"))
  end.

End ErrorHandler.

Import ErrorHandler.

(** ** More sample inputs *)

Module MoreSamples.

(** Files in memory: a file system on which no call throws.  A file is its
    path and its content; directories are always there. *)
Definition Memory : Type := list (string * string).

Fixpoint content (path : string) (f : Memory) : string :=
  match f with
  | [] => EmptyString
  | (p, data) :: f' => if String.eqb p path then data else content path f'
  end.

Definition store (path data : string) (f : Memory) : Memory :=
  (path, data) :: filter (fun entry => negb (String.eqb (fst entry) path)) f.

Definition MemoryFiles : FileSystem Memory := {|
  existsSync := fun _ _ => true;
  mkdirSync := fun _ f => Returned f;
  writeFileSync := fun path data f => Returned (store path data f);
  appendFileSync := fun path data f => Returned (store path (content path f +:+ data) f);
|}.

(** A file system on which every write fails with the same error. *)
Definition permission_denied : Thrown := {|
  thrown_message := Some "EACCES: permission denied";
  thrown_stack := None;
  thrown_is_Error := true;
  thrown_text := "Error: EACCES: permission denied";
|}.

Definition ReadOnlyFiles : FileSystem Memory := {|
  existsSync := fun _ _ => true;
  mkdirSync := fun _ f => Raised (permission_denied, f);
  writeFileSync := fun _ _ f => Raised (permission_denied, f);
  appendFileSync := fun _ _ f => Raised (permission_denied, f);
|}.

Definition epoch : Instant := {| time_value := 0; time_valid := eq_refl |}.

Definition sample_config : Config := {|
  logFilePath := "dist/mcp-startup.log";
  logDir := "dist";
  clock := fun _ => epoch;
|}.

Definition fresh : World Memory := {| files := []; stderr := []; ticks := 0 |}.

End MoreSamples.

Import MoreSamples.

(** * Theorems *)

(** ** Strings *)

Lemma string_append_assoc (a b c : string) : (a +:+ b) +:+ c = a +:+ (b +:+ c).
Proof.
  induction a as [|x a IH]; [reflexivity|].
  change (String x ((a +:+ b) +:+ c) = String x (a +:+ (b +:+ c))).
  now rewrite IH.
Qed.

Lemma string_append_nil_r (a : string) : a +:+ EmptyString = a.
Proof.
  induction a as [|x a IH]; [reflexivity|].
  change (String x (a +:+ EmptyString) = String x a). now rewrite IH.
Qed.

Lemma string_prefix_append (a b : string) : String.prefix a (a +:+ b) = true.
Proof.
  induction a as [|x a IH]; [now destruct b|].
  change (String.prefix (String x a) (String x (a +:+ b)) = true).
  cbn [String.prefix]. destruct (ascii_dec x x); [exact IH | congruence].
Qed.

Lemma string_prefix_split (a s : string) :
  String.prefix a s = true -> exists rest, s = a +:+ rest.
Proof.
  revert s. induction a as [|x a IH]; intros s Hp.
  - exists s. reflexivity.
  - destruct s as [|y s]; [discriminate|].
    cbn [String.prefix] in Hp. destruct (ascii_dec x y) as [->|]; [|discriminate].
    destruct (IH _ Hp) as [rest ->]. exists rest. reflexivity.
Qed.

Lemma string_length_append (a b : string) :
  String.length (a +:+ b) = (String.length a + String.length b)%nat.
Proof.
  induction a as [|x a IH]; [reflexivity|].
  change (S (String.length (a +:+ b)) = S (String.length a + String.length b)).
  now rewrite IH.
Qed.

(** ** The error classifier *)

(** C1.  The classifier assigns exactly one kind to every failed call, and
    once a response has arrived (no transport failure, no deadline
    exceeded) the status code and the presence of the rate-limit reset
    header decide it as the priority table says: 401 is [Authentication];
    403 and 429 with the header are [RateLimit]; 403 without it is
    [Permission]; 404 is [ResourceNotFound]; 409 is [Conflict]; every other
    status, 429 without the header among them, is [Generic]. *)
Theorem classify_priority_table (reset_header : string) (o : CallOutcome) (s : Z) :
  transportFailure o = false ->
  elapsedExceededDeadline o = false ->
  statusCode o = Some s ->
  (forall o' : CallOutcome, exists! k, classify reset_header o' = k)
  /\ (s = 401%Z -> classify reset_header o = Authentication)
  /\ (s = 403%Z \/ s = 429%Z -> is_Some (headers o !! reset_header) ->
      classify reset_header o = RateLimit)
  /\ (s = 403%Z -> headers o !! reset_header = None ->
      classify reset_header o = Permission)
  /\ (s = 404%Z -> classify reset_header o = ResourceNotFound)
  /\ (s = 409%Z -> classify reset_header o = Conflict)
  /\ (s = 429%Z -> headers o !! reset_header = None ->
      classify reset_header o = Generic)
  /\ (s <> 401%Z -> s <> 403%Z -> s <> 404%Z -> s <> 409%Z -> s <> 429%Z ->
      classify reset_header o = Generic).
Proof.
  intros Ht Hd Hs.
  split.
  { intros o'. exists (classify reset_header o'). split; [reflexivity | auto]. }
  unfold classify, rate_limited. rewrite Ht, Hd, Hs.
  repeat split.
  - intros ->. reflexivity.
  - intros [-> | ->] Hh; rewrite (bool_decide_eq_true_2 _ Hh); reflexivity.
  - intros -> Hh. rewrite bool_decide_eq_false_2; [reflexivity|].
    rewrite Hh. intros [? ?]. discriminate.
  - intros ->. reflexivity.
  - intros ->. reflexivity.
  - intros -> Hh. rewrite bool_decide_eq_false_2; [reflexivity|].
    rewrite Hh. intros [? ?]. discriminate.
  - intros H1 H3 H4 H9 H29.
    apply Z.eqb_neq in H1, H3, H4, H9, H29.
    now rewrite H1, H3, H4, H9, H29.
Qed.

Lemma classify_priority_table_witness :
  classify "x-ratelimit-reset" rate_limited_response = RateLimit.
Proof.
  refine (proj1 (proj2 (proj2
    (classify_priority_table "x-ratelimit-reset" rate_limited_response 429
       eq_refl eq_refl eq_refl))) _ _).
  - right. reflexivity.
  - exists "1700000000". vm_compute. reflexivity.
Defined.

(** The two conditions that come before the status code. *)
Lemma classify_transport_first (reset_header : string) (o : CallOutcome) :
  transportFailure o = true -> classify reset_header o = Network.
Proof. intros H. unfold classify. now rewrite H. Qed.

Lemma classify_deadline_second (reset_header : string) (o : CallOutcome) :
  transportFailure o = false -> elapsedExceededDeadline o = true ->
  classify reset_header o = Timeout.
Proof. intros H1 H2. unfold classify. now rewrite H1, H2. Qed.

(** ** Formatting *)

Lemma toISOString_instant (i : Instant) :
  Date_toISOString (Date_of i) = Returned (iso_of_time (time_value i)).
Proof. unfold Date_toISOString, Date_of. now rewrite (time_valid i). Qed.

(** The built-in itself throws on the invalid date. *)
Example toISOString_invalid_date : Date_toISOString None = Raised RangeError.
Proof. reflexivity. Qed.

(** No prefix begins another one. *)
Lemma prefix_of_apart (k1 k2 : ErrorKind) :
  String.prefix (prefix_of k1) (prefix_of k2) = true -> k1 = k2.
Proof. destruct k1, k2; intros H; try reflexivity; discriminate H. Qed.

Lemma prefix_of_inj (k1 k2 : ErrorKind) : prefix_of k1 = prefix_of k2 -> k1 = k2.
Proof.
  intros H. apply prefix_of_apart. rewrite H.
  rewrite <- (string_append_nil_r (prefix_of k2)) at 2. apply string_prefix_append.
Qed.

(** C2.  For every error the formatter returns a message that begins with
    the prefix of the error's kind followed by the error's message; for a
    [RateLimit] error what follows is the reset time as an ISO-8601
    timestamp, for a [Timeout] error the timeout in milliseconds.  The
    prefixes of distinct kinds are distinct, none begins another, and the
    prefix of the fallback, "GitHub API Error: ", is that of [Generic]
    only. *)
Theorem format_prefix_message (error : GitHubError) :
  (exists rest,
      formatGitHubError error
        = Returned (prefix_of (kind_of error) +:+ message_of error +:+ rest)
      /\ match error with
         | GitHubRateLimitError _ resetAt =>
             rest = LF +:+ "Resets at: " +:+ iso_of_time (time_value resetAt)
         | GitHubTimeoutError _ timeoutMs =>
             rest = LF +:+ "Timeout setting: " +:+ Number_toString timeoutMs +:+ "ms"
         | _ => True
         end)
  /\ (forall k1 k2, String.prefix (prefix_of k1) (prefix_of k2) = true -> k1 = k2)
  /\ (forall k1 k2, prefix_of k1 = prefix_of k2 -> k1 = k2)
  /\ (forall k, prefix_of k = "GitHub API Error: " <-> k = Generic).
Proof.
  split; [|split; [|split]].
  - destruct error as [m r|m|m|m|m d|m|m ms|m c|m st r];
      cbn [formatGitHubError kind_of message_of prefix_of].
    + destruct (truthy r).
      * eexists. split; [|exact I]. rewrite string_append_assoc. reflexivity.
      * exists EmptyString. split; [|exact I]. now rewrite string_append_nil_r.
    + exists EmptyString. now rewrite string_append_nil_r.
    + exists EmptyString. now rewrite string_append_nil_r.
    + exists EmptyString. now rewrite string_append_nil_r.
    + rewrite toISOString_instant. eexists. split; reflexivity.
    + exists EmptyString. now rewrite string_append_nil_r.
    + eexists. split; reflexivity.
    + eexists. split; [reflexivity | exact I].
    + exists EmptyString. now rewrite string_append_nil_r.
  - exact prefix_of_apart.
  - exact prefix_of_inj.
  - intros k. split.
    + intros H. apply prefix_of_inj. exact H.
    + intros ->. reflexivity.
Qed.

Lemma format_prefix_message_witness :
  formatGitHubError rate_limit_error
  = Returned ("Rate Limit Exceeded: API rate limit exceeded" +:+ LF
                +:+ "Resets at: 2023-11-14T22:13:20.000Z").
Proof.
  destruct (format_prefix_message rate_limit_error) as [(rest & Heq & Hrest) _].
  rewrite Heq, Hrest. reflexivity.
Defined.

(** The rendering of a reset time. *)
Example iso_of_time_example :
  iso_of_time 1700000000000 = "2023-11-14T22:13:20.000Z".
Proof. vm_compute. reflexivity. Qed.

(** ** Validation comes first *)

Lemma all_chars_false (p : ascii -> bool) (s : string) :
  all_chars p s = false <-> exists c, In c (list_ascii_of_string s) /\ p c = false.
Proof.
  induction s as [|x s IH]; cbn [all_chars list_ascii_of_string In].
  - split; [discriminate | intros (c & [] & _)].
  - rewrite andb_false_iff, IH. split.
    + intros [Hx | (c & Hc & Hp)]; [exists x | exists c]; auto.
    + intros (c & [<- | Hc] & Hp); [left | right; exists c]; auto.
Qed.

Lemma rejected_iff (max_len : nat) (name : string) :
  rejected max_len name <-> rejects max_len name = true.
Proof.
  unfold rejected, rejects, is_empty, too_long.
  rewrite !orb_true_iff, negb_true_iff, all_chars_false, String.eqb_eq, Nat.ltb_lt.
  tauto.
Qed.

Lemma not_rejected_iff (max_len : nat) (name : string) :
  ~ rejected max_len name <-> rejects max_len name = false.
Proof. rewrite rejected_iff. now destruct (rejects max_len name). Qed.

Lemma validate_name_rejected (field : string) (max_len : nat) (name : string) :
  rejected max_len name ->
  validate_name field max_len name
    = Raised (GitHubValidationError ("Invalid " +:+ field +:+ " name") (VStr name)).
Proof. intros Hr%rejected_iff. unfold validate_name. now rewrite Hr. Qed.

Lemma validate_name_accepted (field : string) (max_len : nat) (name : string) :
  ~ rejected max_len name -> validate_name field max_len name = Returned name.
Proof. intros Hr%not_rejected_iff. unfold validate_name. now rewrite Hr. Qed.

Lemma contains_rejected (max_len : nat) (name : string) (c : ascii) :
  allowed_char c = false -> In c (list_ascii_of_string name) -> rejected max_len name.
Proof. intros Hc Hin. right. right. exists c. auto. Qed.

Lemma run_final {A} (github : string -> value -> outcome GitHubError value) (op : Op A) :
  final op -> fst (run github op) = [].
Proof. destruct op; [reflexivity | reflexivity | intros []]. Qed.

(** Every operation starts with the two validations. *)
Ltac unfold_operation :=
  unfold listWorkflows, getWorkflow, getWorkflowUsage, listWorkflowRuns,
    getWorkflowRun, getWorkflowRunJobs, triggerWorkflow, cancelWorkflowRun,
    rerunWorkflowRun, getWorkflowDispatchInputs, getWorkflowYaml.

(** The directory of the workflow files has no surrogate, so the escaping
    of a path throws exactly when the file name has a lone one. *)
Lemma has_lone_surrogate_path (workflowId : string) :
  has_lone_surrogate (".github/workflows/" +:+ workflowId)
  = has_lone_surrogate workflowId.
Proof. destruct workflowId; reflexivity. Qed.

Lemma encodeURIComponent_path (workflowId : string) :
  has_lone_surrogate workflowId = false ->
  encodeURIComponent (".github/workflows/" +:+ workflowId)
  = Returned (percent_encode (".github/workflows/" +:+ workflowId)).
Proof.
  intros Hw. unfold encodeURIComponent. now rewrite has_lone_surrogate_path, Hw.
Qed.

Lemma encodeURIComponent_path_throws (workflowId : string) :
  has_lone_surrogate workflowId = true ->
  encodeURIComponent (".github/workflows/" +:+ workflowId) = Raised URIError.
Proof.
  intros Hw. unfold encodeURIComponent. now rewrite has_lone_surrogate_path, Hw.
Qed.

Section ValidationFirst.
Context `{U : CommonUtils} `{T : CommonTypes} `{Y : JsYaml}.

Lemma operation_owner_rejected (owner repo : string) (call : ToolCall) (e : GitHubError) :
  validateOwnerName owner = Raised e ->
  operation owner repo call = Fail (Classified e).
Proof.
  intros Ho.
  destruct call; cbn [operation];
    unfold_operation;
    rewrite Ho; reflexivity.
Qed.

Lemma operation_repo_rejected (owner owner' repo : string) (call : ToolCall)
    (e : GitHubError) :
  validateOwnerName owner = Returned owner' ->
  validateRepositoryName repo = Raised e ->
  operation owner repo call = Fail (Classified e).
Proof.
  intros Ho Hr.
  destruct call; cbn [operation];
    unfold_operation;
    rewrite Ho; cbn; rewrite Hr; reflexivity.
Qed.

Lemma operation_requests_once (owner owner' repo repo' : string) (call : ToolCall) :
  validateOwnerName owner = Returned owner' ->
  validateRepositoryName repo = Returned repo' ->
  escapes call = true ->
  exists url options k,
    operation owner repo call = Await url options k /\ forall r, final (k r).
Proof.
  intros Ho Hr Hesc.
  destruct call; cbn [operation]; cbn [escapes] in Hesc;
    try apply negb_true_iff in Hesc;
    unfold_operation;
    rewrite Ho; cbn; rewrite Hr; cbn;
    rewrite ?(encodeURIComponent_path _ Hesc); cbn;
    do 3 eexists; (split; [reflexivity|]); intros r; cbn;
    unfold parsed, native; repeat case_match; exact I.
Qed.

Lemma operation_single_request (github : string -> value -> outcome GitHubError value)
    (owner owner' repo repo' : string) (call : ToolCall) :
  validateOwnerName owner = Returned owner' ->
  validateRepositoryName repo = Returned repo' ->
  escapes call = true ->
  exists url options, fst (run github (operation owner repo call)) = [(url, options)].
Proof.
  intros Ho Hr Hesc.
  destruct (operation_requests_once owner owner' repo repo' call Ho Hr Hesc)
    as (url & options & k & -> & Hk).
  exists url, options. cbn [run].
  destruct (github url options) as [r|e]; [|reflexivity].
  cbn [fst]. now rewrite (run_final github (k r) (Hk r)).
Qed.

Lemma operation_not_escaped (github : string -> value -> outcome GitHubError value)
    (owner owner' repo repo' : string) (call : ToolCall) :
  validateOwnerName owner = Returned owner' ->
  validateRepositoryName repo = Returned repo' ->
  escapes call = false ->
  run github (operation owner repo call) = ([], Raised (Native URIError)).
Proof.
  intros Ho Hr Hesc.
  destruct call; cbn [escapes] in Hesc; try discriminate Hesc;
    apply negb_false_iff in Hesc; cbn [operation];
    unfold_operation;
    rewrite Ho; cbn; rewrite Hr; cbn;
    rewrite (encodeURIComponent_path_throws _ Hesc); reflexivity.
Qed.

End ValidationFirst.

(** C3.  A validator rejects a name, with a [Validation] error, exactly when
    the name is empty, longer than the maximum identifier length or has a
    character outside [[A-Za-z0-9-_.]], and returns an accepted name as it
    is; so the empty string, a name with a slash or a space and a name of
    200 characters or more are rejected, and "octocat" and "my-org_2.bot"
    are accepted.  Every operation applies the owner validator to [owner]
    and the repository validator to [repo] first: when either rejects, the
    operation throws that [Validation] error and issues no request; when
    both accept, it issues its request, unless it has a file name to
    escape and [encodeURIComponent] throws on it. *)
Theorem validators_gate (owner_max repo_max : nat) :
  (12 <= owner_max < 200)%nat ->
  (12 <= repo_max < 200)%nat ->
  let U := SpecUtils owner_max repo_max in
  (forall name,
      (rejected owner_max name ->
       exists e, validateOwnerName name = Raised e /\ kind_of e = Validation)
      /\ (~ rejected owner_max name -> validateOwnerName name = Returned name))
  /\ (forall name,
      (rejected repo_max name ->
       exists e, validateRepositoryName name = Raised e /\ kind_of e = Validation)
      /\ (~ rejected repo_max name -> validateRepositoryName name = Returned name))
  /\ (forall max_len name,
      max_len = owner_max \/ max_len = repo_max ->
      name = EmptyString
      \/ In "/"%char (list_ascii_of_string name)
      \/ In " "%char (list_ascii_of_string name)
      \/ (200 <= String.length name)%nat ->
      rejected max_len name)
  /\ (forall max_len,
      max_len = owner_max \/ max_len = repo_max ->
      ~ rejected max_len "octocat" /\ ~ rejected max_len "my-org_2.bot")
  /\ (forall (T : CommonTypes) (Y : JsYaml)
        (github : string -> value -> outcome GitHubError value)
        (owner repo : string) (call : ToolCall),
      (rejected owner_max owner \/ rejected repo_max repo ->
       exists e, kind_of e = Validation
                 /\ run github (operation owner repo call) = ([], Raised (Classified e)))
      /\ (~ rejected owner_max owner -> ~ rejected repo_max repo ->
          if escapes call
          then exists url options,
                 fst (run github (operation owner repo call)) = [(url, options)]
          else run github (operation owner repo call)
               = ([], Raised (Native URIError)))).
Proof.
  intros Ho Hr U. repeat apply conj.
  - intros name. split.
    + intros H. eexists. split; [apply validate_name_rejected, H | reflexivity].
    + apply validate_name_accepted.
  - intros name. split.
    + intros H. eexists. split; [apply validate_name_rejected, H | reflexivity].
    + apply validate_name_accepted.
  - intros max_len name Hmax [-> | [Hs | [Hs | Hlen]]].
    + now left.
    + now apply (contains_rejected _ _ "/"%char).
    + now apply (contains_rejected _ _ " "%char).
    + right. left. destruct Hmax as [-> | ->]; lia.
  - intros max_len Hmax.
    assert (12 <= max_len)%nat as Hm by (destruct Hmax as [-> | ->]; lia).
    split; apply not_rejected_iff; unfold rejects, too_long;
      (replace (max_len <? _)%nat with false
         by (symmetry; apply Nat.ltb_ge; cbn; lia)); reflexivity.
  - intros T Y github owner repo call. split.
    + intros Hrej.
      destruct (rejects owner_max owner) eqn:Eo.
      * apply rejected_iff in Eo. eexists. split; [|
          rewrite (operation_owner_rejected (U:=U) owner repo call _
                     (validate_name_rejected "owner" _ _ Eo)); reflexivity].
        reflexivity.
      * apply not_rejected_iff in Eo.
        destruct Hrej as [Hrej | Hrej]; [contradiction|].
        eexists. split; [|
          rewrite (operation_repo_rejected (U:=U) owner owner repo call _
                     (validate_name_accepted "owner" _ _ Eo)
                     (validate_name_rejected "repository" _ _ Hrej)); reflexivity].
        reflexivity.
    + intros Hao Har. destruct (escapes call) eqn:Hesc.
      * apply (operation_single_request (U:=U) github owner owner repo repo call);
          [apply validate_name_accepted, Hao | apply validate_name_accepted, Har
          | exact Hesc].
      * apply (operation_not_escaped (U:=U) github owner owner repo repo call);
          [apply validate_name_accepted, Hao | apply validate_name_accepted, Har
          | exact Hesc].
Qed.

Lemma validators_gate_witness :
  (12 <= 39 < 200)%nat /\ (12 <= 100 < 200)%nat
  /\ validate_name "owner" 39 "octocat" = Returned "octocat"
  /\ rejected 100 "octo/cat".
Proof.
  assert (12 <= 39 < 200)%nat as Ho by lia.
  assert (12 <= 100 < 200)%nat as Hr by lia.
  destruct (validators_gate 39 100 Ho Hr) as (Hown & _ & Hrej & Hacc & _).
  split; [exact Ho | split; [exact Hr | split]].
  - apply (Hown "octocat"). apply (Hacc 39). now left.
  - apply (Hrej 100 "octo/cat"); [now right|]. right. left. cbn. tauto.
Defined.

(** ** Requests and results of the operations *)

Section Requests.
Context `{U : CommonUtils} `{T : CommonTypes}.
Variable github : string -> value -> outcome GitHubError value.

Lemma run_triggerWorkflow owner repo workflowId ref inputs :
  run github (triggerWorkflow owner repo workflowId ref inputs)
  = run_mutation github owner repo
      (fun owner' repo' =>
         repos +:+ owner' +:+ "/" +:+ repo' +:+ "/actions/workflows/"
           +:+ scalar_toString workflowId +:+ "/dispatches")
      (VObj [("method", VStr "POST"); ("body", trigger_body ref inputs)])
      (success_record ("Workflow " +:+ scalar_toString workflowId
                         +:+ " triggered on " +:+ ref)).
Proof.
  unfold triggerWorkflow, run_mutation.
  destruct (validateOwnerName owner) as [owner'|e]; [|reflexivity]. cbn.
  destruct (validateRepositoryName repo) as [repo'|e]; [|reflexivity]. cbn.
  now destruct (github _ _).
Qed.

Lemma run_cancelWorkflowRun owner repo runId :
  run github (cancelWorkflowRun owner repo runId)
  = run_mutation github owner repo
      (fun owner' repo' =>
         repos +:+ owner' +:+ "/" +:+ repo' +:+ "/actions/runs/"
           +:+ Number_toString runId +:+ "/cancel")
      POST
      (success_record ("Workflow run " +:+ Number_toString runId +:+ " cancelled")).
Proof.
  unfold cancelWorkflowRun, run_mutation.
  destruct (validateOwnerName owner) as [owner'|e]; [|reflexivity]. cbn.
  destruct (validateRepositoryName repo) as [repo'|e]; [|reflexivity]. cbn.
  now destruct (github _ _).
Qed.

Lemma run_rerunWorkflowRun owner repo runId :
  run github (rerunWorkflowRun owner repo runId)
  = run_mutation github owner repo
      (fun owner' repo' =>
         repos +:+ owner' +:+ "/" +:+ repo' +:+ "/actions/runs/"
           +:+ Number_toString runId +:+ "/rerun")
      POST
      (success_record ("Workflow run " +:+ Number_toString runId +:+ " restarted")).
Proof.
  unfold rerunWorkflowRun, run_mutation.
  destruct (validateOwnerName owner) as [owner'|e]; [|reflexivity]. cbn.
  destruct (validateRepositoryName repo) as [repo'|e]; [|reflexivity]. cbn.
  now destruct (github _ _).
Qed.

Lemma run_mutation_completes owner repo url options message :
  completes_with message (snd (run_mutation github owner repo url options (success_record message))).
Proof.
  unfold run_mutation, completes_with.
  destruct (validateOwnerName owner); [|cbn; eauto].
  destruct (validateRepositoryName repo); [|cbn; eauto].
  cbn. destruct (github _ _); eauto.
Qed.

Lemma run_listWorkflowRuns_requests owner owner' repo repo' options :
  validateOwnerName owner = Returned owner' ->
  validateRepositoryName repo = Returned repo' ->
  fst (run github (listWorkflowRuns owner repo options))
  = [(buildUrl (runs_base owner' repo' options) (runs_params options), VUndefined)].
Proof.
  intros Ho Hr. unfold listWorkflowRuns. rewrite Ho. cbn. rewrite Hr. cbn.
  destruct (github _ _) as [r|e]; [|reflexivity]. cbn.
  unfold parsed. now destruct (parse _ _).
Qed.

End Requests.

(** C4.  [triggerWorkflow] issues one request, a POST whose body is
    [{ ref }] alone when [inputs] is absent or has no key, and
    [{ ref, inputs }] with the mapping as it was given when it has a key. *)
Theorem trigger_body_inputs `{U : CommonUtils}
    (github : string -> value -> outcome GitHubError value)
    (owner owner' repo repo' : string) (workflowId : scalar) (ref : string)
    (inputs : option (list (string * string))) :
  validateOwnerName owner = Returned owner' ->
  validateRepositoryName repo = Returned repo' ->
  fst (run github (triggerWorkflow owner repo workflowId ref inputs))
  = [(repos +:+ owner' +:+ "/" +:+ repo' +:+ "/actions/workflows/"
        +:+ scalar_toString workflowId +:+ "/dispatches",
      VObj [("method", VStr "POST"); ("body", trigger_body ref inputs)])]
  /\ (inputs = None \/ inputs = Some [] ->
      trigger_body ref inputs = VObj [("ref", VStr ref)])
  /\ (forall m, inputs = Some m -> m <> [] ->
      trigger_body ref inputs = VObj [("ref", VStr ref); ("inputs", record_value m)]).
Proof.
  intros Ho Hr. repeat apply conj.
  - rewrite run_triggerWorkflow. unfold run_mutation. rewrite Ho, Hr.
    reflexivity.
  - intros [-> | ->]; reflexivity.
  - intros m -> Hm. destruct m as [|p m]; [contradiction|]. reflexivity.
Qed.

Lemma trigger_body_inputs_witness :
  fst (run no_content
         (triggerWorkflow (U:=GitHubUtils) "octocat" "hello-world" (Str "ci.yml") "main"
            (Some [("environment", "prod")])))
  = [("https://api.github.com/repos/octocat/hello-world/actions/workflows/ci.yml/dispatches",
      VObj [("method", VStr "POST");
            ("body", VObj [("ref", VStr "main");
                           ("inputs", VObj [("environment", VStr "prod")])])])].
Proof.
  destruct (trigger_body_inputs (U:=GitHubUtils) no_content
              "octocat" "octocat" "hello-world" "hello-world" (Str "ci.yml") "main"
              (Some [("environment", "prod")]) eq_refl eq_refl) as (Hreq & _ & Hbody).
  rewrite Hreq. rewrite (Hbody _ eq_refl); [reflexivity | discriminate].
Defined.

Lemma elem_of_query_of (k v : string) (params : list (string * option scalar)) :
  (k, v) ∈ query_of params <-> exists x, (k, Some x) ∈ params /\ v = scalar_toString x.
Proof.
  unfold query_of. rewrite list_elem_of_omap. split.
  - intros ([k' [x|]] & Hin & Hf); cbn in Hf; [|discriminate].
    injection Hf as <- <-. eauto.
  - intros (x & Hin & ->). exists (k, Some x). auto.
Qed.

(** The entry of the parameter object of [listWorkflowRuns] with a given
    key. *)
Ltac find_param Hin Heq :=
  unfold runs_params in Hin;
  repeat (apply elem_of_cons in Hin as [Heq | Hin]; [try discriminate Heq|]);
  [injection Heq as Heq | inversion Hin].

(** C9.  The URL that [list_workflow_runs] requests is the base URL
    followed by the query parameters; [page] and [perPage], when given,
    are the parameters [page] and [per_page]; [exclude_pull_requests] is a
    parameter exactly when the flag is true, and its value is then the
    string "true". *)
Theorem list_workflow_runs_query (owner_max repo_max : nat) (T : CommonTypes)
    (github : string -> value -> outcome GitHubError value)
    (owner repo : string) (options : RunsOptions) :
  ~ rejected owner_max owner ->
  ~ rejected repo_max repo ->
  let U := SpecUtils owner_max repo_max in
  let q := query_of (runs_params options) in
  fst (run github (listWorkflowRuns owner repo options))
  = [(runs_base owner repo options +:+ render_query q, VUndefined)]
  /\ (forall v, ("page", v) ∈ q
                <-> exists n, page options = Some n /\ v = Number_toString n)
  /\ (forall v, ("per_page", v) ∈ q
                <-> exists n, perPage options = Some n /\ v = Number_toString n)
  /\ (forall v, ("exclude_pull_requests", v) ∈ q
                <-> excludePullRequests options = Some true /\ v = "true").
Proof.
  intros Ho Hr U q. repeat apply conj.
  - apply (run_listWorkflowRuns_requests (U:=U) github owner owner repo repo options).
    + apply validate_name_accepted, Ho.
    + apply validate_name_accepted, Hr.
  - intros v. unfold q. rewrite elem_of_query_of. split.
    + intros (x & Hin & ->). find_param Hin Heq. destruct (page options) as [n|]; [|discriminate].
      injection Heq as ->. eauto.
    + intros (n & Hn & ->). exists (Num n). split; [|reflexivity].
      unfold runs_params. rewrite Hn.
      do 7 apply list_elem_of_further. apply list_elem_of_here.
  - intros v. unfold q. rewrite elem_of_query_of. split.
    + intros (x & Hin & ->). find_param Hin Heq. destruct (perPage options) as [n|]; [|discriminate].
      injection Heq as ->. eauto.
    + intros (n & Hn & ->). exists (Num n). split; [|reflexivity].
      unfold runs_params. rewrite Hn.
      do 8 apply list_elem_of_further. apply list_elem_of_here.
  - intros v. unfold q. rewrite elem_of_query_of. split.
    + intros (x & Hin & ->). find_param Hin Heq.
      destruct (excludePullRequests options) as [[|]|]; try discriminate.
      injection Heq as ->. split; reflexivity.
    + intros (Hx & ->). exists (Str "true"). split; [|reflexivity].
      unfold runs_params. rewrite Hx.
      do 5 apply list_elem_of_further. apply list_elem_of_here.
Qed.

Lemma not_rejected_octocat : ~ rejected 39 "octocat".
Proof. apply not_rejected_iff. reflexivity. Defined.

Lemma not_rejected_hello_world : ~ rejected 100 "hello-world".
Proof. apply not_rejected_iff. reflexivity. Defined.

Lemma list_workflow_runs_query_witness :
  fst (run no_content
         (listWorkflowRuns (U:=GitHubUtils) (T:=AnyTypes) "octocat" "hello-world" all_runs))
  = [("https://api.github.com/repos/octocat/hello-world/actions/runs?exclude_pull_requests=true&page=2&per_page=50",
      VUndefined)].
Proof.
  destruct (list_workflow_runs_query 39 100 AnyTypes no_content
              "octocat" "hello-world" all_runs
              not_rejected_octocat not_rejected_hello_world) as (Hreq & _).
  refine (eq_trans Hreq _). reflexivity.
Defined.

(** C10.  [triggerWorkflow], [cancelWorkflowRun] and [rerunWorkflowRun]
    complete in one of two ways: they return the record
    [{ success: true, message }], whose message names the workflow and
    the ref, or the run, or they throw a classified error; a record whose
    [success] is not [true] is never returned.  They return whenever both
    names are accepted and GitHub answers the request. *)
Theorem mutations_report_success `{U : CommonUtils}
    (github : string -> value -> outcome GitHubError value)
    (owner repo : string) (workflowId : scalar) (ref : string)
    (inputs : option (list (string * string))) (runId : number) :
  let reports (message : string) (completion : outcome exn value) :=
    match completion with
    | Returned result =>
        result = VObj [("success", VBool true); ("message", VStr message)]
    | Raised thrown => exists e, thrown = Classified e
    end in
  let triggered :=
    "Workflow " +:+ scalar_toString workflowId +:+ " triggered on " +:+ ref in
  let cancelled := "Workflow run " +:+ Number_toString runId +:+ " cancelled" in
  let restarted := "Workflow run " +:+ Number_toString runId +:+ " restarted" in
  let trigger := run github (triggerWorkflow owner repo workflowId ref inputs) in
  let cancel := run github (cancelWorkflowRun owner repo runId) in
  let rerun := run github (rerunWorkflowRun owner repo runId) in
  reports triggered (snd trigger)
  /\ reports cancelled (snd cancel)
  /\ reports restarted (snd rerun)
  /\ (forall result,
      snd trigger = Returned result \/ snd cancel = Returned result
      \/ snd rerun = Returned result ->
      own_member result "success" = Some (VBool true))
  /\ (forall owner' repo',
      validateOwnerName owner = Returned owner' ->
      validateRepositoryName repo = Returned repo' ->
      (forall url options response,
          fst trigger = [(url, options)] -> github url options = Returned response ->
          snd trigger
          = Returned (VObj [("success", VBool true); ("message", VStr triggered)]))
      /\ (forall url options response,
          fst cancel = [(url, options)] -> github url options = Returned response ->
          snd cancel
          = Returned (VObj [("success", VBool true); ("message", VStr cancelled)]))
      /\ (forall url options response,
          fst rerun = [(url, options)] -> github url options = Returned response ->
          snd rerun
          = Returned (VObj [("success", VBool true); ("message", VStr restarted)]))).
Proof.
  intros reports triggered cancelled restarted trigger cancel rerun.
  subst reports triggered cancelled restarted trigger cancel rerun. cbv beta.
  rewrite run_triggerWorkflow, run_cancelWorkflowRun, run_rerunWorkflowRun.
  pose proof (fun url options message =>
                run_mutation_completes github owner repo url options message)
    as Hcompletes.
  unfold completes_with, success_record in *.
  split; [apply Hcompletes|]. split; [apply Hcompletes|].
  split; [apply Hcompletes|]. split.
  - intros result [Hresult | [Hresult | Hresult]];
      lazymatch type of Hresult with
      | snd (run_mutation _ _ _ ?url ?options
               (VObj [("success", _); ("message", VStr ?message)])) = _ =>
          pose proof (Hcompletes url options message) as Hthis
      end;
      rewrite Hresult in Hthis; rewrite Hthis; reflexivity.
  - intros owner' repo' Ho Hr. unfold run_mutation. rewrite Ho, Hr. cbn [fst snd].
    repeat apply conj; intros url options response [= <- <-] ->; reflexivity.
Qed.

Lemma mutations_report_success_witness :
  snd (run no_content
         (triggerWorkflow (U:=GitHubUtils) "octocat" "hello-world" (Str "ci.yml") "main" None))
  = Returned (VObj [("success", VBool true);
                    ("message", VStr "Workflow ci.yml triggered on main")]).
Proof.
  destruct (mutations_report_success (U:=GitHubUtils) no_content
              "octocat" "hello-world" (Str "ci.yml") "main" None (NInt 42))
    as (_ & _ & _ & _ & Hret).
  destruct (Hret "octocat" "hello-world" eq_refl eq_refl) as (Htrigger & _).
  exact (Htrigger _ _ VUndefined eq_refl eq_refl).
Defined.

(** ** Objects and the order of their keys *)

Lemma has_own_false (k : string) (o : list (string * value)) :
  has_own k o = false <-> get_own k o = None.
Proof.
  induction o as [|[k' v'] o IH]; cbn [has_own get_own]; [tauto|].
  destruct (String.eqb k k'); cbn [orb]; [split; discriminate | exact IH].
Qed.

Lemma get_own_app (k : string) (o1 o2 : list (string * value)) :
  get_own k (o1 ++ o2)
  = match get_own k o1 with
    | Some v => Some v
    | None => get_own k o2
    end.
Proof.
  induction o1 as [|[k' v'] o1 IH]; [reflexivity|].
  cbn [app get_own]. now destruct (String.eqb k k').
Qed.

Lemma get_own_replace_same (k : string) (v : value) (o : list (string * value)) :
  has_own k o = true -> get_own k (replace_own k v o) = Some v.
Proof.
  induction o as [|[k' v'] o IH]; cbn [has_own replace_own]; [discriminate|].
  destruct (String.eqb k k') eqn:E; cbn [orb get_own]; rewrite E; auto.
Qed.

Lemma get_own_replace_other (k k' : string) (v : value) (o : list (string * value)) :
  k <> k' -> get_own k' (replace_own k v o) = get_own k' o.
Proof.
  intros Hne. induction o as [|[k1 v1] o IH]; [reflexivity|].
  cbn [replace_own]. destruct (String.eqb k k1) eqn:E; cbn [get_own].
  - apply String.eqb_eq in E. subst k1.
    destruct (String.eqb k' k) eqn:E'; [|reflexivity].
    apply String.eqb_eq in E'. congruence.
  - now rewrite IH.
Qed.

Lemma get_own_insert_index_same (n : Z) (k : string) (v : value)
    (o : list (string * value)) :
  get_own k o = None -> get_own k (insert_index n k v o) = Some v.
Proof.
  induction o as [|[k1 v1] o IH]; cbn [insert_index get_own].
  - now rewrite String.eqb_refl.
  - destruct (String.eqb k k1) eqn:E; [discriminate|]. intros Hnone.
    destruct (array_index k1) as [n1|]; [destruct (n1 <? n)%Z|];
      cbn [get_own]; rewrite ?E, ?String.eqb_refl; auto.
Qed.

Lemma get_own_insert_index_other (n : Z) (k k' : string) (v : value)
    (o : list (string * value)) :
  k <> k' -> get_own k' (insert_index n k v o) = get_own k' o.
Proof.
  intros Hne.
  assert (String.eqb k' k = false) as E by (apply String.eqb_neq; congruence).
  induction o as [|[k1 v1] o IH]; cbn [insert_index get_own].
  - now rewrite E.
  - destruct (array_index k1) as [n1|]; [destruct (n1 <? n)%Z|];
      cbn [get_own]; rewrite ?E, ?IH; reflexivity.
Qed.

Lemma get_own_define_same (k : string) (v : value) (o : list (string * value)) :
  get_own k (define_own k v o) = Some v.
Proof.
  unfold define_own. destruct (has_own k o) eqn:E.
  - now apply get_own_replace_same.
  - apply has_own_false in E. destruct (array_index k).
    + now apply get_own_insert_index_same.
    + rewrite get_own_app, E. cbn [get_own]. now rewrite String.eqb_refl.
Qed.

Lemma get_own_define_other (k k' : string) (v : value) (o : list (string * value)) :
  k <> k' -> get_own k' (define_own k v o) = get_own k' o.
Proof.
  intros Hne. unfold define_own. destruct (has_own k o).
  - now apply get_own_replace_other.
  - destruct (array_index k).
    + now apply get_own_insert_index_other.
    + rewrite get_own_app. cbn [get_own].
      assert (String.eqb k' k = false) as -> by (apply String.eqb_neq; congruence).
      now destruct (get_own k' o).
Qed.

Lemma get_own_define_all_absent (k : string) (entries start : list (string * value)) :
  get_own k entries = None ->
  get_own k (define_all entries start) = get_own k start.
Proof.
  unfold define_all. revert start.
  induction entries as [|[k1 v1] entries IH]; intros start; [reflexivity|].
  cbn [get_own fold_left fst snd].
  destruct (String.eqb k k1) eqn:E; [discriminate|]. intros Hnone.
  rewrite (IH _ Hnone). apply get_own_define_other.
  apply String.eqb_neq in E. congruence.
Qed.

Lemma get_own_fst (k : string) (o : list (string * value)) :
  k ∉ map fst o -> get_own k o = None.
Proof.
  induction o as [|[k1 v1] o IH]; [reflexivity|].
  cbn [map fst get_own]. rewrite not_elem_of_cons. intros [Hne Hnin].
  apply String.eqb_neq in Hne. rewrite Hne. auto.
Qed.

Lemma get_own_define_all_present (k : string) (v : value)
    (entries start : list (string * value)) :
  NoDup (map fst entries) ->
  get_own k entries = Some v ->
  get_own k (define_all entries start) = Some v.
Proof.
  revert start.
  induction entries as [|[k1 v1] entries IH]; intros start Hnd; [discriminate|].
  cbn [map fst] in Hnd. apply NoDup_cons in Hnd as [Hnin Hnd].
  cbn [get_own]. destruct (String.eqb k k1) eqn:E.
  - apply String.eqb_eq in E. subst k1. intros [= ->].
    change (define_all ((k, v) :: entries) start)
      with (define_all entries (define_own k v start)).
    rewrite get_own_define_all_absent; [apply get_own_define_same|].
    now apply get_own_fst.
  - intros Hget.
    change (define_all ((k1, v1) :: entries) start)
      with (define_all entries (define_own k1 v1 start)).
    now apply IH.
Qed.

(** Keys that are not array indices stay in the order in which they are
    defined. *)
Lemma define_all_in_order (entries start : list (string * value)) :
  Forall (fun e => array_index (fst e) = None) entries ->
  NoDup (map fst entries) ->
  Forall (fun e => get_own (fst e) start = None) entries ->
  define_all entries start = start ++ entries.
Proof.
  revert start.
  induction entries as [|[k1 v1] entries IH]; intros start Hidx Hnd Hfresh.
  - cbn. now rewrite app_nil_r.
  - apply Forall_cons in Hidx as [Hk1 Hidx].
    apply Forall_cons in Hfresh as [Hf1 Hfresh].
    cbn [map fst] in Hnd, Hk1, Hf1. apply NoDup_cons in Hnd as [Hnin Hnd].
    change (define_all ((k1, v1) :: entries) start)
      with (define_all entries (define_own k1 v1 start)).
    assert (define_own k1 v1 start = start ++ [(k1, v1)]) as ->.
    { unfold define_own. apply has_own_false in Hf1. now rewrite Hf1, Hk1. }
    rewrite IH; [now rewrite <- app_assoc | assumption | assumption |].
    apply Forall_forall. intros [k2 v2] Hin. cbn [fst].
    rewrite get_own_app.
    rewrite Forall_forall in Hfresh. pose proof (Hfresh _ Hin) as Hk2.
    cbn [fst] in Hk2. rewrite Hk2.
    cbn [get_own]. destruct (String.eqb k2 k1) eqn:E; [|reflexivity].
    apply String.eqb_eq in E. subst k2. exfalso. apply Hnin.
    apply list_elem_of_fmap. exists (k1, v2). auto.
Qed.

Lemma object_of_entries_in_order (entries : list (string * value)) :
  Forall (fun e => array_index (fst e) = None) entries ->
  NoDup (map fst entries) ->
  object_of_entries entries = entries.
Proof.
  intros Hidx Hnd. unfold object_of_entries.
  rewrite define_all_in_order; [reflexivity | assumption | assumption |].
  apply Forall_forall. reflexivity.
Qed.

(** ** Reading the dispatch inputs *)

Lemma get_member_truthy (v : value) (k : string) :
  truthy v = true -> get_member v k = Returned (read v k).
Proof.
  unfold read. destruct v; cbn [truthy get_member]; try discriminate;
    intros _; repeat case_match; reflexivity.
Qed.

Lemma find_inputs_guarded (doc : value) :
  find_inputs doc = Returned (guarded_inputs doc).
Proof.
  unfold find_inputs, has_inputs, guarded_inputs, member_path.
  cbn [fold_left]. unfold mbind, outcome_bind, bind.
  destruct (truthy doc) eqn:Hdoc; [|reflexivity].
  rewrite (get_member_truthy doc "on" Hdoc).
  destruct (truthy (read doc "on")) eqn:Hon; [|reflexivity].
  rewrite (get_member_truthy _ "workflow_dispatch" Hon).
  destruct (truthy (read (read doc "on") "workflow_dispatch")) eqn:Hw; [|reflexivity].
  rewrite (get_member_truthy _ "inputs" Hw).
  now destruct (truthy (read (read (read doc "on") "workflow_dispatch") "inputs")).
Qed.

Lemma own_member_read (v : value) (k : string) (x : value) :
  own_member v k = Some x -> truthy v = true /\ read v k = x.
Proof.
  destruct v; cbn [own_member]; try discriminate.
  intros Hget. split; [reflexivity|]. unfold read. cbn [get_member]. now rewrite Hget.
Qed.

Lemma read_own_member (v : value) (k : string) :
  array_index k = None -> String.eqb k "length" = false ->
  truthy (read v k) = true -> own_member v k = Some (read v k).
Proof.
  intros Hidx Hlen. unfold read.
  destruct v; cbn [get_member own_member truthy]; try discriminate;
    rewrite ?Hidx, ?Hlen; cbn [truthy]; try discriminate.
  destruct (get_own k props); [reflexivity | discriminate].
Qed.

Lemma guarded_present (doc v : value) :
  declared_inputs doc = Some v ->
  guarded_inputs doc = if truthy v then v else VUndefined.
Proof.
  unfold declared_inputs, guarded_inputs.
  destruct (own_member doc "on") as [on|] eqn:Hon; [|discriminate].
  cbn [mbind option_bind].
  destruct (own_member on "workflow_dispatch") as [w|] eqn:Hw; [|discriminate].
  cbn [mbind option_bind]. intros Hi.
  apply own_member_read in Hon as [-> ->].
  apply own_member_read in Hw as [-> ->].
  apply own_member_read in Hi as [-> ->]. reflexivity.
Qed.

Lemma guarded_declared (doc : value) (ins : list (string * value)) :
  declared_inputs doc = Some (VObj ins) -> guarded_inputs doc = VObj ins.
Proof. intros H. now rewrite (guarded_present doc _ H). Qed.

Lemma guarded_undeclared (doc : value) :
  declared_inputs doc = None -> truthy (guarded_inputs doc) = false.
Proof.
  unfold declared_inputs, guarded_inputs. intros Hnone.
  destruct (truthy doc && truthy (read doc "on")
            && truthy (read (read doc "on") "workflow_dispatch")
            && truthy (read (read (read doc "on") "workflow_dispatch") "inputs"))
    eqn:Hall; [|reflexivity].
  exfalso. apply andb_true_iff in Hall as [Hall Hi].
  apply andb_true_iff in Hall as [Hall Hw].
  apply andb_true_iff in Hall as [_ Hon].
  apply read_own_member in Hon; [|reflexivity..].
  apply read_own_member in Hw; [|reflexivity..].
  apply read_own_member in Hi; [|reflexivity..].
  rewrite Hon in Hnone. cbn [mbind option_bind] in Hnone.
  rewrite Hw in Hnone. cbn [mbind option_bind] in Hnone.
  congruence.
Qed.

Lemma guarded_nothing (doc : value) :
  (forall v, declared_inputs doc = Some v -> truthy v = false) ->
  truthy (guarded_inputs doc) = false.
Proof.
  intros Hfalsy. destruct (declared_inputs doc) as [v|] eqn:Hdecl.
  - rewrite (guarded_present doc v Hdecl), (Hfalsy v eq_refl). reflexivity.
  - now apply guarded_undeclared.
Qed.

Lemma extract_inputs (doc : value) (ins : list (string * value)) :
  guarded_inputs doc = VObj ins ->
  extract_dispatch_inputs doc
  = Returned (VObj [("inputs", VArr (map input_record ins))]).
Proof.
  intros Hg. unfold extract_dispatch_inputs.
  rewrite find_inputs_guarded, Hg. reflexivity.
Qed.

Lemma extract_no_inputs (doc : value) :
  truthy (guarded_inputs doc) = false ->
  extract_dispatch_inputs doc = Returned no_inputs_found.
Proof.
  intros Hg. unfold extract_dispatch_inputs.
  rewrite find_inputs_guarded. unfold mbind, outcome_bind, bind.
  now rewrite Hg.
Qed.

(** The extraction never throws: the guards keep every property read and
    [Object.entries] away from [undefined] and [null]. *)
Lemma extract_never_throws (doc : value) :
  exists result, extract_dispatch_inputs doc = Returned result.
Proof.
  unfold extract_dispatch_inputs.
  rewrite find_inputs_guarded. unfold mbind, outcome_bind, bind.
  destruct (truthy (guarded_inputs doc)) eqn:Hg; cbn [negb]; [|eauto].
  destruct (guarded_inputs doc); cbn [truthy] in Hg; try discriminate;
    cbn [Object_entries]; eauto.
Qed.

Section Extraction.
Context `{U : CommonUtils} `{Y : JsYaml}.
Variable github : string -> value -> outcome GitHubError value.

(** The run of [getWorkflowDispatchInputs] once the names are accepted
    and GitHub has answered. *)
Lemma run_getWorkflowDispatchInputs (owner owner' repo repo' workflowId : string)
    (response : value) :
  validateOwnerName owner = Returned owner' ->
  validateRepositoryName repo = Returned repo' ->
  has_lone_surrogate workflowId = false ->
  github (yaml_url owner' repo' workflowId) raw_accept = Returned response ->
  run github (getWorkflowDispatchInputs owner repo workflowId)
  = ([(yaml_url owner' repo' workflowId, raw_accept)],
     match yaml_load (yaml_content response) with
     | Raised e => Returned (parse_failure e)
     | Returned doc =>
         match extract_dispatch_inputs doc with
         | Returned result => Returned result
         | Raised e => Raised (Native e)
         end
     end).
Proof.
  intros Ho Hr Hw Hg. unfold getWorkflowDispatchInputs, getWorkflowYaml.
  rewrite Ho. cbn. rewrite Hr. cbn. rewrite (encodeURIComponent_path _ Hw). cbn.
  fold (yaml_url owner' repo' workflowId). rewrite Hg. cbn.
  destruct (yaml_load (yaml_content response)) as [doc|e]; [|reflexivity].
  unfold native. now destruct (extract_dispatch_inputs doc).
Qed.

End Extraction.

Lemma input_record_carries (name : string) (meta : value) :
  (forall fields, meta = VObj fields ->
                  NoDup (map fst fields) /\ get_own "name" fields = None) ->
  exists record,
    input_record (name, meta) = VObj record
    /\ get_own "name" record = Some (VStr name)
    /\ (forall fields, meta = VObj fields ->
        forall k v, get_own k fields = Some v -> get_own k record = Some v).
Proof.
  intros Hmeta. unfold input_record. cbn [fst snd].
  destruct meta as [| |b|n|s|d|elems|fields];
    try (exists (define_own "name" (VStr name) []);
         split; [cbn [truthy typeof_object andb]; now repeat case_match|];
         split; [apply get_own_define_same | discriminate]).
  destruct (Hmeta fields eq_refl) as [Hnd Hname].
  eexists. split; [reflexivity|]. cbn [spread_entries]. split.
  - rewrite get_own_define_all_absent by exact Hname. apply get_own_define_same.
  - intros fields' [= <-] k v Hget. now apply get_own_define_all_present.
Qed.

(** C5.  When the file name can be escaped and the document that
    [yaml.load] returns for the fetched file has a mapping under
    [on.workflow_dispatch.inputs], filled with the declared inputs in
    source order, no input name is an array index and no metadata mapping
    has a field [name], [getWorkflowDispatchInputs] returns
    [{ inputs: [...] }] with one record per declared input, in source
    order; each record has the input's name under [name] and every field
    of the input's metadata mapping with its value.  On the document
    [on: {workflow_dispatch: {inputs: {environment: {description: env,
    required: true, default: prod}}}}] the result is
    [{ inputs: [{ name: environment, description: env, required: true,
    default: prod }] }]. *)
Theorem dispatch_inputs_in_order `{U : CommonUtils} `{Y : JsYaml}
    (github : string -> value -> outcome GitHubError value)
    (owner owner' repo repo' workflowId : string) (response doc : value) :
  validateOwnerName owner = Returned owner' ->
  validateRepositoryName repo = Returned repo' ->
  has_lone_surrogate workflowId = false ->
  github (yaml_url owner' repo' workflowId) raw_accept = Returned response ->
  yaml_load (yaml_content response) = Returned doc ->
  (forall src : list (string * value),
      declared_inputs doc = Some (VObj (object_of_entries src)) ->
      NoDup (map fst src) ->
      Forall (fun e => array_index (fst e) = None) src ->
      Forall (fun e => forall fields, snd e = VObj fields ->
                NoDup (map fst fields) /\ get_own "name" fields = None) src ->
      snd (run github (getWorkflowDispatchInputs owner repo workflowId))
      = Returned (VObj [("inputs", VArr (map input_record src))])
      /\ Forall (fun e =>
            exists record,
              input_record e = VObj record
              /\ get_own "name" record = Some (VStr (fst e))
              /\ (forall fields, snd e = VObj fields ->
                  forall k v, get_own k fields = Some v -> get_own k record = Some v))
           src)
  /\ (doc = environment_workflow ->
      snd (run github (getWorkflowDispatchInputs owner repo workflowId))
      = Returned (VObj [("inputs", VArr
          [VObj [("name", VStr "environment"); ("description", VStr "env");
                 ("required", VBool true); ("default", VStr "prod")]])])).
Proof.
  intros Ho Hr Hw Hg Hload.
  rewrite (run_getWorkflowDispatchInputs github owner owner' repo repo' workflowId
             response Ho Hr Hw Hg), Hload.
  cbn [snd]. split.
  - intros src Hdecl Hnd Hidx Hmeta.
    rewrite (object_of_entries_in_order src Hidx Hnd) in Hdecl.
    rewrite (extract_inputs doc src (guarded_declared doc src Hdecl)).
    split; [reflexivity|].
    apply Forall_forall. intros [name meta] Hin.
    rewrite Forall_forall in Hmeta.
    apply (input_record_carries name meta (Hmeta _ Hin)).
  - intros ->. reflexivity.
Qed.

Lemma dispatch_inputs_in_order_witness :
  snd (run (serves "on: {workflow_dispatch: {inputs: {environment: {}}}}")
         (getWorkflowDispatchInputs (U:=GitHubUtils) (Y:=Loads environment_workflow)
            "octocat" "hello-world" "deploy.yml"))
  = Returned (VObj [("inputs", VArr
      [VObj [("name", VStr "environment"); ("description", VStr "env");
             ("required", VBool true); ("default", VStr "prod")]])]).
Proof.
  destruct (dispatch_inputs_in_order (U:=GitHubUtils) (Y:=Loads environment_workflow)
              (serves "on: {workflow_dispatch: {inputs: {environment: {}}}}")
              "octocat" "octocat" "hello-world" "hello-world" "deploy.yml"
              (VStr "on: {workflow_dispatch: {inputs: {environment: {}}}}")
              environment_workflow eq_refl eq_refl eq_refl eq_refl eq_refl) as [Hsrc _].
  destruct (Hsrc [("environment",
                   VObj [("description", VStr "env"); ("required", VBool true);
                         ("default", VStr "prod")])]) as [Hresult _].
  - reflexivity.
  - apply NoDup_singleton.
  - repeat constructor.
  - constructor; [|constructor]. intros fields [= <-]. split; [|reflexivity].
    apply (bool_decide_unpack _). vm_compute. exact I.
  - exact Hresult.
Defined.

(** A metadata field [name] takes the place of the input's name: the input
    declared as [environment] is reported as [target]. *)
Lemma dispatch_input_name_overridden :
  declared_inputs named_metadata_workflow
  = Some (VObj [("environment",
                 VObj [("name", VStr "target"); ("description", VStr "env")])])
  /\ snd (run (serves "on: {workflow_dispatch: {inputs: {environment: {name: target}}}}")
            (getWorkflowDispatchInputs (U:=GitHubUtils) (Y:=Loads named_metadata_workflow)
               "octocat" "hello-world" "deploy.yml"))
     = Returned (VObj [("inputs", VArr
         [VObj [("name", VStr "target"); ("description", VStr "env")]])])
  /\ read (input_record ("environment",
                         VObj [("name", VStr "target"); ("description", VStr "env")]))
          "name"
     <> VStr "environment".
Proof. repeat split. discriminate. Qed.

(** Input names that are array indices come first, whatever their place in
    the source. *)
Example dispatch_inputs_indices_first :
  extract_dispatch_inputs
    (VObj [("on", VObj [("workflow_dispatch", VObj [("inputs", VObj
       (object_of_entries [("region", VNull); ("2", VNull); ("1", VNull)]))])])])
  = Returned (VObj [("inputs", VArr
      [VObj [("name", VStr "1")]; VObj [("name", VStr "2")];
       VObj [("name", VStr "region")]])]).
Proof. vm_compute. reflexivity. Qed.

(** C6.  When the file was fetched and [yaml.load] returns a document,
    [getWorkflowDispatchInputs] returns
    [{ error: "No workflow_dispatch inputs found in workflow YAML." }]
    exactly when the document has nothing truthy under
    [on.workflow_dispatch.inputs]: a step of the path is missing, or what
    is there is [null] or another falsy value.  It does not throw, and the
    record differs from that of a parse failure.  An empty mapping under
    [inputs] is truthy: the result is then [{ inputs: [] }]. *)
Theorem no_dispatch_inputs_is_a_result `{U : CommonUtils} `{Y : JsYaml}
    (github : string -> value -> outcome GitHubError value)
    (owner owner' repo repo' workflowId : string) (response doc : value) :
  validateOwnerName owner = Returned owner' ->
  validateRepositoryName repo = Returned repo' ->
  has_lone_surrogate workflowId = false ->
  github (yaml_url owner' repo' workflowId) raw_accept = Returned response ->
  yaml_load (yaml_content response) = Returned doc ->
  (snd (run github (getWorkflowDispatchInputs owner repo workflowId))
   = Returned (VObj [("error", VStr "No workflow_dispatch inputs found in workflow YAML.")])
   <-> forall v, declared_inputs doc = Some v -> truthy v = false)
  /\ (declared_inputs doc = Some (VObj []) ->
      snd (run github (getWorkflowDispatchInputs owner repo workflowId))
      = Returned (VObj [("inputs", VArr [])]))
  /\ (forall details,
      VObj [("error", VStr "No workflow_dispatch inputs found in workflow YAML.")]
      <> parse_failure details).
Proof.
  intros Ho Hr Hw Hg Hload.
  rewrite (run_getWorkflowDispatchInputs github owner owner' repo repo' workflowId
             response Ho Hr Hw Hg), Hload.
  cbn [snd]. split; [|split; [|discriminate]].
  - split.
    + intros Hresult v Hdecl. destruct (truthy v) eqn:Hv; [exfalso|reflexivity].
      pose proof (guarded_present doc v Hdecl) as Hguard. rewrite Hv in Hguard.
      unfold extract_dispatch_inputs in Hresult.
      rewrite find_inputs_guarded, Hguard in Hresult.
      unfold mbind, outcome_bind, bind in Hresult. rewrite Hv in Hresult.
      cbn [negb] in Hresult.
      destruct (Object_entries v); discriminate Hresult.
    + intros Hnone. now rewrite (extract_no_inputs doc (guarded_nothing doc Hnone)).
  - intros Hdecl. now rewrite (extract_inputs doc [] (guarded_declared doc [] Hdecl)).
Qed.

Lemma no_dispatch_inputs_is_a_result_witness :
  snd (run (serves "name: CI")
         (getWorkflowDispatchInputs (U:=GitHubUtils) (Y:=Loads push_workflow)
            "octocat" "hello-world" "ci.yml"))
  = Returned (VObj [("error", VStr "No workflow_dispatch inputs found in workflow YAML.")]).
Proof.
  refine (proj2 (proj1 (no_dispatch_inputs_is_a_result
                          (U:=GitHubUtils) (Y:=Loads push_workflow)
                          (serves "name: CI")
                          "octocat" "octocat" "hello-world" "hello-world" "ci.yml"
                          (VStr "name: CI") push_workflow
                          eq_refl eq_refl eq_refl eq_refl eq_refl)) _).
  intros v Hdeclared. discriminate Hdeclared.
Defined.

(** A workflow that declares [workflow_dispatch] with an empty mapping of
    inputs has no input, yet the result is [{ inputs: [] }] and not the
    record of no inputs. *)
Lemma empty_inputs_mapping_is_a_list :
  declared_inputs empty_inputs_workflow = Some (VObj [])
  /\ snd (run (serves "on: {workflow_dispatch: {inputs: {}}}")
            (getWorkflowDispatchInputs (U:=GitHubUtils) (Y:=Loads empty_inputs_workflow)
               "octocat" "hello-world" "deploy.yml"))
     = Returned (VObj [("inputs", VArr [])])
  /\ VObj [("inputs", VArr [])]
     <> VObj [("error", VStr "No workflow_dispatch inputs found in workflow YAML.")].
Proof. repeat split. discriminate. Qed.

(** C7.  When the file was fetched and [yaml.load] throws on its text,
    [getWorkflowDispatchInputs] returns
    [{ error: "Failed to parse workflow YAML", details }] with the rendering
    of what was thrown: the failure is a result, nothing is thrown. *)
Theorem parse_failure_is_a_result `{U : CommonUtils} `{Y : JsYaml}
    (github : string -> value -> outcome GitHubError value)
    (owner owner' repo repo' workflowId : string) (response : value) (e : string) :
  validateOwnerName owner = Returned owner' ->
  validateRepositoryName repo = Returned repo' ->
  has_lone_surrogate workflowId = false ->
  github (yaml_url owner' repo' workflowId) raw_accept = Returned response ->
  yaml_load (yaml_content response) = Raised e ->
  run github (getWorkflowDispatchInputs owner repo workflowId)
  = ([(yaml_url owner' repo' workflowId, raw_accept)],
     Returned (VObj [("error", VStr "Failed to parse workflow YAML");
                     ("details", VStr e)])).
Proof.
  intros Ho Hr Hw Hg Hload.
  rewrite (run_getWorkflowDispatchInputs github owner owner' repo repo' workflowId
             response Ho Hr Hw Hg), Hload.
  reflexivity.
Qed.

Lemma parse_failure_is_a_result_witness :
  snd (run (serves "on: [")
         (getWorkflowDispatchInputs (U:=GitHubUtils)
            (Y:=FailsToLoad "YAMLException: unexpected end of the stream")
            "octocat" "hello-world" "ci.yml"))
  = Returned (VObj [("error", VStr "Failed to parse workflow YAML");
                    ("details", VStr "YAMLException: unexpected end of the stream")]).
Proof.
  exact (f_equal snd
           (parse_failure_is_a_result (U:=GitHubUtils)
              (Y:=FailsToLoad "YAMLException: unexpected end of the stream")
              (serves "on: [")
              "octocat" "octocat" "hello-world" "hello-world" "ci.yml"
              (VStr "on: [") "YAMLException: unexpected end of the stream"
              eq_refl eq_refl eq_refl eq_refl eq_refl)).
Defined.

(** ** The credential *)

Lemma substring_all (s : string) : String.substring 0 (String.length s) s = s.
Proof.
  induction s as [|x s IH]; [reflexivity|].
  cbn [String.length String.substring]. now rewrite IH.
Qed.

Lemma substring_after (a b : string) :
  String.substring (String.length a) (String.length (a +:+ b) - String.length a) (a +:+ b)
  = b.
Proof.
  rewrite string_length_append.
  replace (String.length a + String.length b - String.length a)%nat
    with (String.length b) by lia.
  induction a as [|x a IH]; [apply substring_all|].
  change (String x a +:+ b) with (String x (a +:+ b)).
  cbn [String.length String.substring]. exact IH.
Qed.

Lemma cliToken_none (argv : list string) :
  cliToken argv = None <-> Forall no_flag argv.
Proof.
  induction argv as [|arg argv IH]; cbn [cliToken].
  - split; [constructor | reflexivity].
  - rewrite Forall_cons. unfold no_flag at 1.
    destruct (String.prefix flag arg); [|rewrite IH; tauto].
    split; [discriminate | intros [? _]; discriminate].
Qed.

Lemma cliToken_some (argv : list string) (t : string) :
  cliToken argv = Some t
  <-> exists before after,
      argv = before ++ (flag +:+ t) :: after /\ Forall no_flag before.
Proof.
  induction argv as [|arg argv IH]; cbn [cliToken].
  - split; [discriminate|]. intros (before & after & Heq & _).
    now destruct before.
  - destruct (String.prefix flag arg) eqn:Hp.
    + apply string_prefix_split in Hp as Hsplit. destruct Hsplit as [rest ->].
      rewrite substring_after. split.
      * intros [= ->]. exists [], argv. split; [reflexivity | constructor].
      * intros (before & after & Heq & Hno).
        destruct before as [|x before]; cbn [app] in Heq.
        -- injection Heq as Heq _. change (rest = t) in Heq. now subst.
        -- injection Heq as <- _. apply Forall_cons in Hno as [Hx _].
           unfold no_flag in Hx. congruence.
    + rewrite IH. split.
      * intros (before & after & -> & Hno). exists (arg :: before), after.
        split; [reflexivity|]. now constructor.
      * intros (before & after & Heq & Hno).
        destruct before as [|x before]; cbn [app] in Heq.
        -- injection Heq as -> _. now rewrite string_prefix_append in Hp.
        -- injection Heq as _ ->. apply Forall_cons in Hno as [_ Hno]. eauto.
Qed.

(** C8.  The credential is the value of the first [--token=] argument when
    that value is not empty; otherwise it is the environment variable when
    that is set and not empty; when neither gives a value the process
    exits with code 1 and does not get to serve.  The first [--token=]
    argument is the one with no such argument before it, and there is none
    exactly when no argument starts with [--token=]. *)
Theorem credential_resolution (argv : list string) (env : option string) :
  (forall t, cliToken argv = Some t -> t <> EmptyString -> startup argv env = Serve t)
  /\ (forall t,
      cliToken argv = None \/ cliToken argv = Some EmptyString ->
      env = Some t -> t <> EmptyString ->
      startup argv env = Serve t)
  /\ (cliToken argv = None \/ cliToken argv = Some EmptyString ->
      env = None \/ env = Some EmptyString ->
      startup argv env = Exit 1)
  /\ (cliToken argv = None <-> Forall no_flag argv)
  /\ (forall t,
      cliToken argv = Some t
      <-> exists before after,
          argv = before ++ (flag +:+ t) :: after /\ Forall no_flag before).
Proof.
  assert (forall t, t <> EmptyString -> String.eqb t EmptyString = false) as Hne
    by (intros t; apply String.eqb_neq).
  unfold startup, GITHUB_TOKEN, or_else. split; [|split; [|split; [|split]]].
  - intros t -> Ht. cbn [truthy]. rewrite (Hne t Ht). cbn [negb].
    cbn [truthy]. now rewrite (Hne t Ht).
  - intros t [-> | ->] -> Ht; cbn [truthy String.eqb negb];
      now rewrite (Hne t Ht).
  - intros [-> | ->] [-> | ->]; reflexivity.
  - apply cliToken_none.
  - apply cliToken_some.
Qed.

Lemma credential_resolution_witness :
  startup ["node"; "index.js"; "--token=ghp_cli"] (Some "ghp_env") = Serve "ghp_cli".
Proof.
  apply (proj1 (credential_resolution
                  ["node"; "index.js"; "--token=ghp_cli"] (Some "ghp_env")));
    [reflexivity | discriminate].
Defined.

(** The flag is there, its value is empty, and the token is that of the
    environment; so it is when a second flag has a value, since only the
    first one is read. *)
Lemma empty_token_flag_falls_back :
  cliToken ["node"; "index.js"; "--token="] = Some EmptyString
  /\ startup ["node"; "index.js"; "--token="] (Some "ghp_env") = Serve "ghp_env"
  /\ startup ["node"; "index.js"; "--token="; "--token=ghp_cli"] (Some "ghp_env")
     = Serve "ghp_env"
  /\ startup ["node"; "index.js"; "--token="; "--token=ghp_cli"] None = Exit 1.
Proof. repeat split. Qed.

(** * Further properties of the operations *)

(** ** The URL of a workflow file *)

Lemma all_chars_append (p : ascii -> bool) (a b : string) :
  all_chars p (a +:+ b) = all_chars p a && all_chars p b.
Proof.
  induction a as [|x a IH]; [reflexivity|].
  change (all_chars p (String x (a +:+ b)) = all_chars p (String x a) && all_chars p b).
  cbn [all_chars]. now rewrite IH, andb_assoc.
Qed.

Lemma percent_encode_append (a b : string) :
  percent_encode (a +:+ b) = percent_encode a +:+ percent_encode b.
Proof.
  induction a as [|x a IH]; [reflexivity|].
  change (percent_encode (String x (a +:+ b))
          = percent_encode (String x a) +:+ percent_encode b).
  cbn [percent_encode]. now rewrite IH, string_append_assoc.
Qed.

Lemma nat_of_ascii_nibbles (c : ascii) :
  (nat_of_ascii c / 16 < 16)%nat /\ (nat_of_ascii c mod 16 < 16)%nat.
Proof.
  pose proof (nat_ascii_bounded c) as Hc. split.
  - apply Nat.Div0.div_lt_upper_bound. lia.
  - apply Nat.mod_upper_bound. lia.
Qed.

Lemma HEX_url_safe (n : nat) : (n < 16)%nat -> all_chars url_safe (HEX n) = true.
Proof.
  intros Hn. do 16 (destruct n as [|n]; [reflexivity|]). lia.
Qed.

Lemma HEX_inj (n m : nat) : (n < 16)%nat -> (m < 16)%nat -> HEX n = HEX m -> n = m.
Proof.
  intros Hn Hm.
  do 16 (destruct n as [|n];
         [do 16 (destruct m as [|m]; [reflexivity || discriminate|]); lia|]).
  lia.
Qed.

Lemma percent_encode_url_safe (s : string) :
  all_chars url_safe (percent_encode s) = true.
Proof.
  induction s as [|c s IH]; [reflexivity|].
  cbn [percent_encode]. rewrite all_chars_append, IH, andb_true_r.
  destruct (unreserved c) eqn:Hc.
  - cbn [all_chars]. unfold url_safe. now rewrite Hc.
  - destruct (nat_of_ascii_nibbles c) as [Hhi Hlo].
    rewrite !all_chars_append, (HEX_url_safe _ Hhi), (HEX_url_safe _ Hlo).
    reflexivity.
Qed.

Lemma percent_encode_inj (s1 s2 : string) :
  percent_encode s1 = percent_encode s2 -> s1 = s2.
Proof.
  revert s2. induction s1 as [|c1 s1 IH]; intros [|c2 s2];
    cbn [percent_encode]; intros Heq.
  - reflexivity.
  - exfalso. destruct (unreserved c2); discriminate Heq.
  - exfalso. destruct (unreserved c1); discriminate Heq.
  - destruct (unreserved c1) eqn:H1, (unreserved c2) eqn:H2.
    + injection Heq as -> Heq. f_equal. now apply IH.
    + exfalso. injection Heq as -> _. discriminate H1.
    + exfalso. injection Heq as <- _. discriminate H2.
    + destruct (nat_of_ascii_nibbles c1) as [Hh1 Hl1].
      destruct (nat_of_ascii_nibbles c2) as [Hh2 Hl2].
      rewrite !string_append_assoc in Heq.
      apply (inj (String.append "%")) in Heq.
      assert (forall n m a b, (n < 16)%nat -> (m < 16)%nat ->
                HEX n +:+ a = HEX m +:+ b -> n = m /\ a = b) as Hhex.
      { intros n m a b Hn Hm Hab. unfold HEX in Hab. injection Hab as Hc Hab.
        split; [|exact Hab]. apply HEX_inj; [assumption..|].
        unfold HEX. f_equal. exact Hc. }
      apply Hhex in Heq as [Hhi Heq]; [|assumption..].
      apply Hhex in Heq as [Hlo Heq]; [|assumption..].
      assert (c1 = c2) as ->.
      { rewrite <- (ascii_nat_embedding c1), <- (ascii_nat_embedding c2).
        f_equal.
        rewrite (Nat.div_mod_eq (nat_of_ascii c1) 16),
          (Nat.div_mod_eq (nat_of_ascii c2) 16).
        now rewrite Hhi, Hlo. }
      f_equal. now apply IH.
Qed.

Lemma all_chars_true (p : ascii -> bool) (s : string) :
  all_chars p s = true -> forall c, In c (list_ascii_of_string s) -> p c = true.
Proof.
  intros Hall c Hin. destruct (p c) eqn:Hc; [reflexivity|].
  assert (all_chars p s = false) as Hfalse by (apply all_chars_false; eauto).
  congruence.
Qed.

Lemma run_getWorkflowYaml `{U : CommonUtils}
    (github : string -> value -> outcome GitHubError value)
    (owner owner' repo repo' workflowId : string) :
  validateOwnerName owner = Returned owner' ->
  validateRepositoryName repo = Returned repo' ->
  has_lone_surrogate workflowId = false ->
  run github (getWorkflowYaml owner repo workflowId)
  = ([(yaml_url owner' repo' workflowId, raw_accept)],
     match github (yaml_url owner' repo' workflowId) raw_accept with
     | Returned response => Returned (VObj [("yaml", yaml_content response)])
     | Raised e => Raised (Classified e)
     end).
Proof.
  intros Ho Hr Hw. unfold getWorkflowYaml. rewrite Ho. cbn. rewrite Hr. cbn.
  rewrite (encodeURIComponent_path _ Hw). cbn.
  fold (yaml_url owner' repo' workflowId). now destruct (github _ _).
Qed.

(** The file name of [getWorkflowYaml] is escaped: when it has no lone
    surrogate, what follows [/contents/] in the requested URL is the
    escaped directory followed by the escaped name, and has no slash,
    question mark or hash. *)
Theorem workflow_file_url_escaped `{U : CommonUtils}
    (github : string -> value -> outcome GitHubError value)
    (owner owner' repo repo' workflowId : string) :
  validateOwnerName owner = Returned owner' ->
  validateRepositoryName repo = Returned repo' ->
  has_lone_surrogate workflowId = false ->
  let segment := ".github%2Fworkflows%2F" +:+ percent_encode workflowId in
  fst (run github (getWorkflowYaml owner repo workflowId))
  = [(repos +:+ owner' +:+ "/" +:+ repo' +:+ "/contents/" +:+ segment, raw_accept)]
  /\ all_chars url_safe segment = true
  /\ (forall c, In c (list_ascii_of_string segment) ->
                c <> "/"%char /\ c <> "?"%char /\ c <> "#"%char).
Proof.
  intros Ho Hr Hw segment.
  assert (all_chars url_safe segment = true) as Hsafe.
  { unfold segment. rewrite all_chars_append, percent_encode_url_safe. reflexivity. }
  split; [|split; [exact Hsafe|]].
  - rewrite (run_getWorkflowYaml github owner owner' repo repo' workflowId Ho Hr Hw).
    cbn [fst]. unfold yaml_url, segment. rewrite percent_encode_append.
    reflexivity.
  - intros c Hin. pose proof (all_chars_true _ _ Hsafe c Hin) as Hc.
    repeat split; intros ->; discriminate Hc.
Qed.

Lemma workflow_file_url_escaped_witness :
  fst (run no_content (getWorkflowYaml (U:=GitHubUtils) "octocat" "hello-world" "sub dir/ci.yml"))
  = [("https://api.github.com/repos/octocat/hello-world/contents/.github%2Fworkflows%2Fsub%20dir%2Fci.yml",
      raw_accept)].
Proof.
  exact (proj1 (workflow_file_url_escaped (U:=GitHubUtils) no_content
                  "octocat" "octocat" "hello-world" "hello-world" "sub dir/ci.yml"
                  eq_refl eq_refl eq_refl)).
Defined.

(** Two file names never give the same URL: the escaping loses nothing. *)
Theorem workflow_file_url_distinct (owner repo workflowId1 workflowId2 : string) :
  workflowId1 <> workflowId2 ->
  yaml_url owner repo workflowId1 <> yaml_url owner repo workflowId2.
Proof.
  intros Hne Heq. apply Hne. unfold yaml_url in Heq.
  do 5 apply (inj (String.append _)) in Heq.
  apply percent_encode_inj in Heq.
  now apply (inj (String.append _)) in Heq.
Qed.

Lemma workflow_file_url_distinct_witness :
  yaml_url "octocat" "hello-world" "ci.yml" <> yaml_url "octocat" "hello-world" "cd.yml".
Proof.
  apply workflow_file_url_distinct. discriminate.
Defined.

(** ** The requests of the tools *)

Lemma string_prefix_trans (a b c : string) :
  String.prefix a b = true -> String.prefix b c = true -> String.prefix a c = true.
Proof.
  intros [x ->]%string_prefix_split [y ->]%string_prefix_split.
  rewrite string_append_assoc. apply string_prefix_append.
Qed.

Lemma string_prefix_under (a b c : string) :
  String.prefix b c = true -> String.prefix (a +:+ b) (a +:+ c) = true.
Proof.
  intros [x ->]%string_prefix_split.
  rewrite <- string_append_assoc. apply string_prefix_append.
Qed.

(** Reduces an operation whose two validations succeed to its request. *)
Ltac to_request Ho Hr :=
  cbn [operation]; unfold_operation; rewrite Ho; cbn; rewrite Hr; cbn.

Section ToolRequests.
Context `{U : CommonUtils} `{T : CommonTypes} `{Y : JsYaml}.
Variable github : string -> value -> outcome GitHubError value.
Variables owner owner' repo repo' : string.
Hypothesis owner_accepted : validateOwnerName owner = Returned owner'.
Hypothesis repo_accepted : validateRepositoryName repo = Returned repo'.

(** A read operation issues one request without options and completes as
    the [parse] of its schema completes on the response; when the request
    fails, the classified error goes through and nothing is parsed. *)
Theorem read_operations_return_parsed (call : ToolCall) (schema : Schema) :
  schema_of call = Some schema ->
  exists url,
    run github (operation owner repo call)
    = ([(url, VUndefined)],
       match github url VUndefined with
       | Returned response =>
           match parse schema response with
           | Returned result => Returned result
           | Raised issues => Raised (ZodError issues)
           end
       | Raised e => Raised (Classified e)
       end).
Proof.
  intros Hschema.
  destruct call; try discriminate Hschema; injection Hschema as <-;
    to_request owner_accepted repo_accepted;
    lazymatch goal with |- context [github ?u VUndefined] => exists u end;
    (destruct (github _ _) as [response|e]; cbn; [|reflexivity]);
    unfold parsed; now destruct (parse _ response).
Qed.

(** Only [trigger_workflow], [cancel_workflow_run] and [rerun_workflow]
    send a POST; the request of every other tool has no method and no
    body.  A tool that cannot escape its file name sends nothing. *)
Theorem only_mutations_post (call : ToolCall) :
  if escapes call
  then exists url options,
         fst (run github (operation owner repo call)) = [(url, options)]
         /\ (own_member options "method" = Some (VStr "POST")
             <-> is_mutation call = true)
         /\ (is_mutation call = false ->
             own_member options "method" = None /\ own_member options "body" = None)
  else fst (run github (operation owner repo call)) = []
       /\ is_mutation call = false.
Proof.
  destruct (escapes call) eqn:Hesc.
  - destruct (operation_requests_once owner owner' repo repo' call
                owner_accepted repo_accepted Hesc) as (url & options & k & Hop & Hfinal).
    exists url, options. split.
    + rewrite Hop. cbn [run]. destruct (github url options) as [r|e]; [|reflexivity].
      cbn [fst]. now rewrite (run_final github (k r) (Hfinal r)).
    + revert Hop. destruct call; cbn [escapes] in Hesc;
        try apply negb_true_iff in Hesc;
        to_request owner_accepted repo_accepted;
        rewrite ?(encodeURIComponent_path _ Hesc); cbn;
        intros [= <- <- _]; cbn; (split; [split|]); try discriminate;
        try reflexivity; intros _; split; reflexivity.
  - rewrite (operation_not_escaped github owner owner' repo repo' call
               owner_accepted repo_accepted Hesc).
    split; [reflexivity|]. destruct call; try discriminate Hesc; reflexivity.
Qed.

(** The text of every requested URL begins with the address of the
    repository named by what the validators returned, provided [buildUrl]
    keeps the base URL at the front.  No more than the text is confined:
    the workflow identifier of [getWorkflow], [getWorkflowUsage],
    [triggerWorkflow] and [listWorkflowRuns] is put in the path as it is,
    slashes and dots included. *)
Theorem request_urls_begin_with_repository (call : ToolCall) (id ref : string)
    (inputs : option (list (string * string))) (options : RunsOptions) :
  (forall base params, String.prefix base (buildUrl base params) = true) ->
  (forall url opts,
      (url, opts) ∈ fst (run github (operation owner repo call)) ->
      String.prefix (repos +:+ owner' +:+ "/" +:+ repo' +:+ "/") url = true)
  /\ fst (run github (getWorkflow owner repo (Str id)))
     = [(repos +:+ owner' +:+ "/" +:+ repo' +:+ "/actions/workflows/" +:+ id,
         VUndefined)]
  /\ fst (run github (getWorkflowUsage owner repo (Str id)))
     = [(repos +:+ owner' +:+ "/" +:+ repo' +:+ "/actions/workflows/" +:+ id
           +:+ "/timing",
         VUndefined)]
  /\ fst (run github (triggerWorkflow owner repo (Str id) ref inputs))
     = [(repos +:+ owner' +:+ "/" +:+ repo' +:+ "/actions/workflows/" +:+ id
           +:+ "/dispatches",
         VObj [("method", VStr "POST"); ("body", trigger_body ref inputs)])]
  /\ (workflowId options = Some (Str id) -> id <> EmptyString ->
      fst (run github (listWorkflowRuns owner repo options))
      = [(buildUrl (repos +:+ owner' +:+ "/" +:+ repo' +:+ "/actions/workflows/"
                      +:+ id +:+ "/runs")
            (runs_params options),
          VUndefined)]).
Proof.
  intros Hbase. split; [|repeat apply conj].
  - intros url opts Hin. destruct (escapes call) eqn:Hesc.
    + destruct (operation_requests_once owner owner' repo repo' call
                  owner_accepted repo_accepted Hesc) as (url' & opts' & k & Hop & Hfinal).
      assert (fst (run github (operation owner repo call)) = [(url', opts')]) as Hreq.
      { rewrite Hop. cbn [run]. destruct (github url' opts') as [r|e]; [|reflexivity].
        cbn [fst]. now rewrite (run_final github (k r) (Hfinal r)). }
      rewrite Hreq in Hin. apply list_elem_of_singleton in Hin as [= -> ->].
      clear Hreq Hfinal. revert Hop. destruct call; cbn [escapes] in Hesc;
        try apply negb_true_iff in Hesc;
        to_request owner_accepted repo_accepted;
        rewrite ?(encodeURIComponent_path _ Hesc); cbn;
        intros [= <- _ _];
        try (eapply string_prefix_trans; [|apply Hbase]);
        unfold runs_base; repeat case_match;
        do 4 apply string_prefix_under; reflexivity.
    + rewrite (operation_not_escaped github owner owner' repo repo' call
                 owner_accepted repo_accepted Hesc) in Hin.
      cbn [fst] in Hin. now apply elem_of_nil in Hin.
  - unfold getWorkflow. rewrite owner_accepted. cbn. rewrite repo_accepted. cbn.
    destruct (github _ _) as [r|e]; [|reflexivity]. cbn.
    unfold parsed. now destruct (parse _ r).
  - unfold getWorkflowUsage. rewrite owner_accepted. cbn. rewrite repo_accepted. cbn.
    destruct (github _ _) as [r|e]; [|reflexivity]. cbn.
    unfold parsed. now destruct (parse _ r).
  - rewrite run_triggerWorkflow. unfold run_mutation.
    rewrite owner_accepted, repo_accepted. reflexivity.
  - intros Hid Hne.
    rewrite (run_listWorkflowRuns_requests github owner owner' repo repo' options
               owner_accepted repo_accepted).
    unfold runs_base. rewrite Hid. cbn.
    destruct id; [contradiction | reflexivity].
Qed.

End ToolRequests.

Lemma read_operations_return_parsed_witness :
  run (serves "{}") (operation (U:=GitHubUtils) (T:=AnyTypes) (Y:=Loads VNull)
                       "octocat" "hello-world" (get_workflow_run (NInt 42)))
  = ([("https://api.github.com/repos/octocat/hello-world/actions/runs/42", VUndefined)],
     Returned (VStr "{}")).
Proof.
  destruct (read_operations_return_parsed (U:=GitHubUtils) (T:=AnyTypes) (Y:=Loads VNull)
              (serves "{}") "octocat" "octocat" "hello-world" "hello-world"
              eq_refl eq_refl (get_workflow_run (NInt 42)) WorkflowRunSchema eq_refl)
    as [url Hrun].
  pose proof (f_equal fst Hrun) as Hurl. vm_compute in Hurl.
  injection Hurl as <-. rewrite Hrun. reflexivity.
Defined.

Lemma only_mutations_post_witness :
  exists url options,
    fst (run no_content (operation (U:=GitHubUtils) (T:=AnyTypes) (Y:=Loads VNull)
                           "octocat" "hello-world" (cancel_workflow_run (NInt 42))))
    = [(url, options)]
    /\ own_member options "method" = Some (VStr "POST").
Proof.
  pose proof (only_mutations_post (U:=GitHubUtils) (T:=AnyTypes) (Y:=Loads VNull)
                no_content "octocat" "octocat" "hello-world" "hello-world"
                eq_refl eq_refl (cancel_workflow_run (NInt 42))) as Hposts.
  cbn [escapes] in Hposts. destruct Hposts as (url & options & Hrequest & Hpost & _).
  exists url, options. split; [exact Hrequest|]. now apply Hpost.
Defined.

Lemma spec_buildUrl_keeps_base (base : string) (params : list (string * option scalar)) :
  String.prefix base (spec_buildUrl base params) = true.
Proof. apply string_prefix_append. Defined.

Lemma request_urls_begin_with_repository_witness :
  fst (run no_content
         (getWorkflow (U:=GitHubUtils) (T:=AnyTypes) "octocat" "hello-world"
            (Str "../../../../../user")))
  = [("https://api.github.com/repos/octocat/hello-world/actions/workflows/../../../../../user",
      VUndefined)].
Proof.
  exact (proj1 (proj2 (request_urls_begin_with_repository
                         (U:=GitHubUtils) (T:=AnyTypes) (Y:=Loads VNull)
                         no_content "octocat" "octocat" "hello-world" "hello-world"
                         eq_refl eq_refl (list_workflow_runs all_runs)
                         "../../../../../user" "main" None all_runs
                         spec_buildUrl_keeps_base))).
Defined.

(** An absent workflow identifier, the empty string, zero and [NaN] all
    list the runs of the whole repository; any other identifier lists the
    runs of that workflow. *)
Theorem runs_of_falsy_workflow `{U : CommonUtils} `{T : CommonTypes}
    (github : string -> value -> outcome GitHubError value)
    (owner owner' repo repo' : string) (options : RunsOptions) :
  validateOwnerName owner = Returned owner' ->
  validateRepositoryName repo = Returned repo' ->
  (workflowId options = None
   \/ workflowId options = Some (Str EmptyString)
   \/ workflowId options = Some (Num (NInt 0))
   \/ workflowId options = Some (Num NNaN) ->
   fst (run github (listWorkflowRuns owner repo options))
   = [(buildUrl (repos +:+ owner' +:+ "/" +:+ repo' +:+ "/actions/runs")
         (runs_params options), VUndefined)])
  /\ (forall id,
      workflowId options = Some id ->
      id <> Str EmptyString -> id <> Num (NInt 0) -> id <> Num NNaN ->
      fst (run github (listWorkflowRuns owner repo options))
      = [(buildUrl (repos +:+ owner' +:+ "/" +:+ repo' +:+ "/actions/workflows/"
                      +:+ scalar_toString id +:+ "/runs")
            (runs_params options), VUndefined)]).
Proof.
  intros Ho Hr.
  rewrite (run_listWorkflowRuns_requests github owner owner' repo repo' options Ho Hr).
  unfold runs_base. split.
  - intros [-> | [-> | [-> | ->]]]; reflexivity.
  - intros id -> Hs Hz Hn.
    assert (scalar_truthy (Some id) = true) as ->; [|reflexivity].
    destruct id as [s|[z| |b]]; cbn.
    + destruct s; [congruence | reflexivity].
    + destruct (Z.eqb_spec z 0) as [->|]; [congruence | reflexivity].
    + congruence.
    + reflexivity.
Qed.

Lemma runs_of_falsy_workflow_witness :
  fst (run no_content
         (listWorkflowRuns (U:=GitHubUtils) (T:=AnyTypes) "octocat" "hello-world"
            {| workflowId := Some (Str EmptyString); actor := None; branch := None;
               event := None; status := None; created := None;
               excludePullRequests := None; checkSuiteId := None;
               page := None; perPage := None |}))
  = [("https://api.github.com/repos/octocat/hello-world/actions/runs", VUndefined)].
Proof.
  refine (proj1 (runs_of_falsy_workflow (U:=GitHubUtils) (T:=AnyTypes) no_content
                   "octocat" "octocat" "hello-world" "hello-world" _ eq_refl eq_refl) _).
  right. left. reflexivity.
Defined.

(** ** The workflow file and its inputs *)

Lemma JSON_stringify_undefined (v : value) :
  JSON_stringify v = None <-> v = VUndefined.
Proof.
  split; [|intros ->; reflexivity].
  destruct v as [| |[|]|[z| |b]|s|d|elems|props]; cbn [JSON_stringify];
    try discriminate; [reflexivity|].
  destruct (Date_toISOString d); discriminate.
Qed.

(** The [yaml] that [getWorkflowYaml] returns is the response itself when
    the response is a string and the JSON text of the response otherwise;
    it is a string unless the response is [undefined]. *)
Theorem workflow_yaml_is_text `{U : CommonUtils}
    (github : string -> value -> outcome GitHubError value)
    (owner owner' repo repo' workflowId : string) (response : value) :
  validateOwnerName owner = Returned owner' ->
  validateRepositoryName repo = Returned repo' ->
  has_lone_surrogate workflowId = false ->
  github (yaml_url owner' repo' workflowId) raw_accept = Returned response ->
  exists yaml,
    snd (run github (getWorkflowYaml owner repo workflowId))
    = Returned (VObj [("yaml", yaml)])
    /\ (forall s, response = VStr s -> yaml = VStr s)
    /\ ((forall s, response <> VStr s) ->
        JSON_stringify response = None /\ yaml = VUndefined
        \/ exists s, JSON_stringify response = Some s /\ yaml = VStr s)
    /\ (yaml = VUndefined <-> response = VUndefined).
Proof.
  intros Ho Hr Hw Hg. exists (yaml_content response).
  rewrite (run_getWorkflowYaml github owner owner' repo repo' workflowId Ho Hr Hw), Hg.
  split; [reflexivity|]. split; [|split].
  - intros s ->. reflexivity.
  - intros Hns.
    assert (yaml_content response = from_option VStr VUndefined (JSON_stringify response))
      as -> by (destruct response; try reflexivity; now destruct (Hns s)).
    destruct (JSON_stringify response) as [s|]; [right; eauto | left; auto].
  - unfold yaml_content. split.
    + intros Hy. apply JSON_stringify_undefined.
      destruct response; try discriminate Hy;
        now destruct (JSON_stringify _).
    + intros ->. reflexivity.
Qed.

Lemma workflow_yaml_is_text_witness :
  exists yaml,
    snd (run (serves "on: push")
           (getWorkflowYaml (U:=GitHubUtils) "octocat" "hello-world" "ci.yml"))
    = Returned (VObj [("yaml", yaml)])
    /\ yaml = VStr "on: push".
Proof.
  destruct (workflow_yaml_is_text (U:=GitHubUtils) (serves "on: push")
              "octocat" "octocat" "hello-world" "hello-world" "ci.yml" (VStr "on: push")
              eq_refl eq_refl eq_refl eq_refl) as (yaml & Hrun & Hstring & _).
  exists yaml. split; [exact Hrun | now apply Hstring].
Defined.

(** [getWorkflowDispatchInputs] issues the requests of [getWorkflowYaml]
    and no other; it throws what [getWorkflowYaml] throws, and returns a
    record whenever [getWorkflowYaml] returns: reading the document never
    throws.  What [getWorkflowYaml] throws is a classified error or, for
    a file name with a lone surrogate, the [URIError] of
    [encodeURIComponent]; with both names accepted such a file name makes
    both operations throw the [URIError] before any request. *)
Theorem dispatch_inputs_follow_the_file `{U : CommonUtils} `{Y : JsYaml}
    (github : string -> value -> outcome GitHubError value)
    (owner repo workflowId : string) :
  let file := run github (getWorkflowYaml owner repo workflowId) in
  let inputs := run github (getWorkflowDispatchInputs owner repo workflowId) in
  fst inputs = fst file
  /\ match snd file with
     | Raised e =>
         snd inputs = Raised e
         /\ ((exists error, e = Classified error)
             \/ e = Native URIError
                /\ has_lone_surrogate workflowId = true
                /\ fst file = [])
     | Returned _ => exists result, snd inputs = Returned result
     end
  /\ (forall owner' repo',
      validateOwnerName owner = Returned owner' ->
      validateRepositoryName repo = Returned repo' ->
      has_lone_surrogate workflowId = true ->
      file = ([], Raised (Native URIError))
      /\ inputs = ([], Raised (Native URIError))).
Proof.
  intros file inputs. subst file inputs.
  unfold getWorkflowDispatchInputs, getWorkflowYaml.
  destruct (validateOwnerName owner) as [owner'|e]; cbn;
    [|split; [reflexivity|]; split; [eauto|]; intros ? ? [=]].
  destruct (validateRepositoryName repo) as [repo'|e]; cbn;
    [|split; [reflexivity|]; split; [eauto|]; intros ? ? _ [=]].
  destruct (has_lone_surrogate workflowId) eqn:Hw.
  - rewrite (encodeURIComponent_path_throws _ Hw). cbn.
    split; [reflexivity|]. split; [split; [reflexivity|]; right; auto|].
    intros _ _ _ _ _. split; reflexivity.
  - rewrite (encodeURIComponent_path _ Hw). cbn.
    destruct (github _ _) as [response|e]; cbn;
      [|split; [reflexivity|]; split; [eauto|]; intros ? ? _ _ [=]].
    destruct (yaml_load (yaml_content response)) as [doc|e]; cbn;
      [|split; [reflexivity|]; split; [eauto|]; intros ? ? _ _ [=]].
    destruct (extract_never_throws doc) as [result ->]. cbn.
    split; [reflexivity|]. split; [eauto|]. intros ? ? _ _ [=].
Qed.

Lemma dispatch_inputs_follow_the_file_witness :
  run no_content
    (getWorkflowDispatchInputs (U:=GitHubUtils) (Y:=Loads VNull)
       "octocat" "hello-world" lone_surrogate_name)
  = ([], Raised (Native URIError)).
Proof.
  exact (proj2 (proj2 (proj2 (dispatch_inputs_follow_the_file
                                (U:=GitHubUtils) (Y:=Loads VNull) no_content
                                "octocat" "hello-world" lone_surrogate_name))
                  "octocat" "hello-world" eq_refl eq_refl eq_refl)).
Defined.

(** The handler of [get_workflow_yaml] answers with the text of the file
    as GitHub served it, not with JSON, when the file was fetched. *)
Theorem yaml_tool_returns_the_file `{U : CommonUtils} `{T : CommonTypes} `{Y : JsYaml}
    (github : string -> value -> outcome GitHubError value)
    (owner owner' repo repo' workflowId text : string) :
  validateOwnerName owner = Returned owner' ->
  validateRepositoryName repo = Returned repo' ->
  has_lone_surrogate workflowId = false ->
  github (yaml_url owner' repo' workflowId) raw_accept = Returned (VStr text) ->
  run github (tool owner repo (get_workflow_yaml workflowId))
  = ([(yaml_url owner' repo' workflowId, raw_accept)],
     Returned (VObj [("content", VArr [VObj [("type", VStr "text");
                                             ("text", VStr text)]])])).
Proof.
  intros Ho Hr Hw Hg. unfold tool. cbn [operation]. unfold getWorkflowYaml.
  rewrite Ho. cbn. rewrite Hr. cbn. rewrite (encodeURIComponent_path _ Hw). cbn.
  fold (yaml_url owner' repo' workflowId). rewrite Hg. reflexivity.
Qed.

Lemma yaml_tool_returns_the_file_witness :
  snd (run (serves "on: push")
         (tool (U:=GitHubUtils) (T:=AnyTypes) (Y:=Loads VNull)
            "octocat" "hello-world" (get_workflow_yaml "ci.yml")))
  = Returned (VObj [("content", VArr [VObj [("type", VStr "text");
                                            ("text", VStr "on: push")]])]).
Proof.
  exact (f_equal snd
           (yaml_tool_returns_the_file (U:=GitHubUtils) (T:=AnyTypes) (Y:=Loads VNull)
              (serves "on: push") "octocat" "octocat" "hello-world" "hello-world"
              "ci.yml" "on: push" eq_refl eq_refl eq_refl eq_refl)).
Defined.

(** ** The records of the inputs *)

Lemma get_own_define_kept (k k' : string) (v : value) (o : list (string * value)) :
  is_Some (get_own k o) -> is_Some (get_own k (define_own k' v o)).
Proof.
  intros Hk. destruct (String.eqb_spec k' k) as [->|Hne].
  - rewrite get_own_define_same. eauto.
  - now rewrite get_own_define_other.
Qed.

Lemma get_own_define_all_kept (k : string) (entries start : list (string * value)) :
  is_Some (get_own k start) -> is_Some (get_own k (define_all entries start)).
Proof.
  unfold define_all. revert start.
  induction entries as [|[k1 v1] entries IH]; intros start Hk; [exact Hk|].
  cbn [fold_left fst snd]. apply IH. now apply get_own_define_kept.
Qed.

Lemma input_record_named (entry : string * value) :
  exists fields, input_record entry = VObj fields /\ is_Some (get_own "name" fields).
Proof.
  unfold input_record. destruct (_ && _); eexists; (split; [reflexivity|]).
  - apply get_own_define_all_kept. rewrite get_own_define_same. eauto.
  - rewrite get_own_define_same. eauto.
Qed.

(** Whatever the document, the extraction returns the record of no inputs
    or a list of records, and every record of the list is an object with a
    field [name]. *)
Theorem dispatch_result_shape (doc : value) :
  extract_dispatch_inputs doc = Returned no_inputs_found
  \/ exists entries,
      Object_entries (guarded_inputs doc) = Returned entries
      /\ extract_dispatch_inputs doc
         = Returned (VObj [("inputs", VArr (map input_record entries))])
      /\ Forall (fun record =>
                   exists fields, record = VObj fields
                                  /\ is_Some (get_own "name" fields))
           (map input_record entries).
Proof.
  unfold extract_dispatch_inputs. rewrite find_inputs_guarded.
  unfold mbind, outcome_bind, bind.
  destruct (truthy (guarded_inputs doc)) eqn:Hg; cbn [negb]; [right | now left].
  assert (exists entries, Object_entries (guarded_inputs doc) = Returned entries)
    as [entries Hentries]
    by (destruct (guarded_inputs doc); cbn [truthy] in Hg; try discriminate;
        cbn [Object_entries]; eauto).
  exists entries. rewrite Hentries. split; [reflexivity|]. split; [reflexivity|].
  apply Forall_forall. intros record Hin.
  apply list_elem_of_fmap in Hin as (entry & -> & _).
  apply input_record_named.
Qed.

(** An input declared with anything but a mapping (nothing, a scalar, a
    list, a date) is reported with its name alone. *)
Theorem input_without_metadata (name : string) (meta : value) :
  (forall fields, meta <> VObj fields) ->
  input_record (name, meta) = VObj [("name", VStr name)].
Proof.
  intros Hmeta. unfold input_record. cbn [fst snd].
  destruct meta as [| |b|n|s|d|elems|fields];
    try (destruct (_ && _); reflexivity).
  now destruct (Hmeta fields).
Qed.

Lemma input_without_metadata_witness :
  input_record ("environment", VStr "the target") = VObj [("name", VStr "environment")].
Proof. apply input_without_metadata. discriminate. Defined.

(** The record of an input with a metadata mapping lists [name] first and
    then the fields of the mapping in their order, when no field is called
    [name] and no key is an array index. *)
Theorem input_metadata_in_order (name : string) (fields : list (string * value)) :
  NoDup (map fst fields) ->
  Forall (fun field => array_index (fst field) = None) fields ->
  get_own "name" fields = None ->
  input_record (name, VObj fields) = VObj (("name", VStr name) :: fields).
Proof.
  intros Hnd Hidx Hname. unfold input_record. cbn [fst snd truthy typeof_object
    Array_isArray andb negb spread_entries].
  rewrite define_all_in_order; [reflexivity | assumption | assumption |].
  apply Forall_forall. intros [k v] Hin. cbn [fst].
  change (define_own "name" (VStr name) []) with [("name", VStr name)].
  cbn [get_own]. destruct (String.eqb_spec k "name") as [->|]; [|reflexivity].
  exfalso. assert (get_own "name" fields <> None) as Hsome; [|congruence].
  clear Hname Hidx. induction fields as [|[k1 v1] fields IH]; [inversion Hin|].
  cbn [get_own]. destruct (String.eqb_spec "name" k1); [discriminate|].
  apply elem_of_cons in Hin as [[= <- <-] | Hin]; [congruence|].
  cbn [map fst] in Hnd. apply NoDup_cons in Hnd as [_ Hnd]. now apply IH.
Qed.

Lemma input_metadata_in_order_witness :
  input_record ("environment", VObj [("type", VStr "choice"); ("required", VBool true)])
  = VObj [("name", VStr "environment"); ("type", VStr "choice"); ("required", VBool true)].
Proof.
  apply input_metadata_in_order.
  - apply (bool_decide_unpack _). vm_compute. exact I.
  - repeat constructor.
  - reflexivity.
Defined.

(** A metadata field called [name] takes the place of the input's name in
    the record. *)
Theorem input_metadata_name_wins (name : string) (fields : list (string * value))
    (v : value) :
  NoDup (map fst fields) ->
  get_own "name" fields = Some v ->
  exists record,
    input_record (name, VObj fields) = VObj record
    /\ get_own "name" record = Some v.
Proof.
  intros Hnd Hname. unfold input_record. cbn [fst snd truthy typeof_object
    Array_isArray andb negb spread_entries].
  eexists. split; [reflexivity|]. now apply get_own_define_all_present.
Qed.

Lemma input_metadata_name_wins_witness :
  exists record,
    input_record ("environment", VObj [("description", VStr "env"); ("name", VStr "target")])
    = VObj record
    /\ get_own "name" record = Some (VStr "target").
Proof.
  apply input_metadata_name_wins; [|reflexivity].
  apply (bool_decide_unpack _). vm_compute. exact I.
Defined.



(** * Properties of the log and of start-up *)

Section LogProperties.
Context {F : Type} `{FS : FileSystem F}.
Variable cfg : Config.









(** What start-up writes does not depend on the token: with any two
    credentials that give a token, the files and the standard error end
    up the same. *)
Theorem startup_log_hides_token (argv argv' : list string) (env env' : option string)
    (token token' : string) (connect : outcome Thrown unit) (w : World F) :
  token_found argv env = Some token ->
  token_found argv' env' = Some token' ->
  fst (main cfg argv env connect w) = fst (main cfg argv' env' connect w).
Proof.
  intros Ht Ht'. unfold main. rewrite Ht, Ht'.
  destruct (initialize_log cfg w) as [w1 [|]]; cbn [negb]; [|reflexivity].
  now destruct connect.
Qed.

End LogProperties.




Lemma startup_log_hides_token_witness :
  fst (main (FS:=MemoryFiles) sample_config
         ["node"; "index.js"; "--token=ghp_cli"] None (Returned tt) fresh)
  = fst (main (FS:=MemoryFiles) sample_config
           ["node"; "index.js"] (Some "ghp_env") (Returned tt) fresh).
Proof.
  exact (startup_log_hides_token (FS:=MemoryFiles) sample_config
           ["node"; "index.js"; "--token=ghp_cli"] ["node"; "index.js"]
           None (Some "ghp_env") "ghp_cli" "ghp_env" (Returned tt) fresh
           eq_refl eq_refl).
Defined.

(** On a file system that refuses every write, the message goes to the
    standard error. *)
Example log_on_read_only_files :
  stderr (logToFile (FS:=ReadOnlyFiles) sample_config "hello" fresh)
  = ["[File Log Error] Failed to write to dist/mcp-startup.log: EACCES: permission denied";
     "[Original Message] hello"].
Proof. reflexivity. Qed.

Example log_in_memory :
  content "dist/mcp-startup.log"
    (files (logToFile (FS:=MemoryFiles) sample_config "world"
              (logToFile (FS:=MemoryFiles) sample_config "hello" fresh)))
  = "[1970-01-01T00:00:00.000Z] hello" +:+ LF
    +:+ "[1970-01-01T00:00:00.000Z] world" +:+ LF.
Proof. vm_compute. reflexivity. Qed.

(** * Properties of the handlers that format errors *)

Lemma formatGitHubError_returns (error : GitHubError) :
  exists rest,
    formatGitHubError error
    = Returned (prefix_of (kind_of error) +:+ message_of error +:+ rest).
Proof.
  destruct error as [m r|m|m|m|m d|m|m ms|m c|m st r];
    cbn [formatGitHubError kind_of message_of prefix_of];
    rewrite ?toISOString_instant;
    try (exists EmptyString; now rewrite string_append_nil_r);
    try (eexists; reflexivity).
  destruct (truthy r).
  - eexists. rewrite string_append_assoc. reflexivity.
  - exists EmptyString. now rewrite string_append_nil_r.
Qed.

(** A handler that catches what its operation throws never returns the
    content "Error" that follows [errorHandler]: it throws.  For a
    classified error it throws an [Error] whose message begins with the
    prefix of the kind and the message of the error; for a [ZodError], one
    whose message is "Invalid input: " and the issues as JSON; any other
    error is thrown again as it is.  The handler returns only when the
    operation returned. *)
Theorem handler_rethrows_formatted (error : exn) :
  (exists failure,
      handle (Raised error) = Raised failure
      /\ match error with
         | Classified e =>
             exists rest,
               failure = NewError (prefix_of (kind_of e) +:+ message_of e +:+ rest)
         | ZodError issues =>
             exists json,
               JSON_stringify issues = Some json
               /\ failure = NewError ("Invalid input: " +:+ json)
               \/ issues = VUndefined
                  /\ failure = NewError "Invalid input: undefined"
         | Native _ => failure = Same error
         end)
  /\ (forall completion content,
        handle completion = Returned content ->
        exists result, completion = Returned result).
Proof.
  split.
  - destruct error as [e|issues|native]; cbn [handle errorHandler].
    + destruct (formatGitHubError_returns e) as [rest ->].
      eexists. split; [reflexivity | eauto].
    + eexists. split; [reflexivity|].
      destruct (JSON_stringify issues) as [json|] eqn:Hjson.
      * exists json. left. auto.
      * exists EmptyString. right. split; [|reflexivity].
        now apply JSON_stringify_undefined.
    + eexists. split; reflexivity.
  - intros [result|thrown] content Hreturned; [eauto|]. exfalso.
    cbn [handle] in Hreturned. destruct thrown as [e|issues|native];
      cbn [errorHandler] in Hreturned; try discriminate Hreturned.
    destruct (formatGitHubError_returns e) as [rest Hfmt].
    rewrite Hfmt in Hreturned. discriminate Hreturned.
Qed.

Lemma handler_rethrows_formatted_witness :
  exists rest,
    handle (Raised (Classified (GitHubAuthenticationError "Bad credentials")))
    = Raised (NewError ("Authentication Failed: Bad credentials" +:+ rest)).
Proof.
  destruct (handler_rethrows_formatted
              (Classified (GitHubAuthenticationError "Bad credentials")))
    as [(failure & Hthrown & rest & ->) _].
  exists rest. exact Hthrown.
Defined.
